(** * A shallow embedding of [tempo_normalizer_v13.py]

    Floating-point values of the Python code are modelled as exact
    rationals [Q]; the numpy helpers the code calls ([np.mean],
    [np.median], [np.cumsum], [np.linspace], [np.searchsorted],
    [np.clip], [scipy.ndimage.gaussian_filter1d]) are written out over
    lists.  Exceptions raised by the Python code are modelled with
    [option]: [None] is the raise. *)

From Stdlib Require Import QArith Qround Qminmax Lqa Lia ZArith List Sorted.
Import ListNotations.

Open Scope Q_scope.

(** ** numpy / Python helpers *)

(** Python [int(x)] on a float: truncation toward zero. *)
Definition py_int (q : Q) : Z :=
  if Qlt_le_dec q 0 then (- Qfloor (- q))%Z else Qfloor q.

Definition Qsum (l : list Q) : Q := fold_right Qplus 0 l.

(** [np.mean]: the empty mean is [nan] in numpy; here it is [0], which
    behaves like [nan] in the only comparison the code makes on it
    ([avg_median > 0.01] is false in both cases). *)
Definition np_mean (l : list Q) : Q := Qsum l / inject_Z (Z.of_nat (length l)).

Fixpoint insert_q (x : Q) (l : list Q) : list Q :=
  match l with
  | [] => [x]
  | y :: r => if Qle_bool x y then x :: y :: r else y :: insert_q x r
  end.

Definition sort_q (l : list Q) : list Q := fold_right insert_q [] l.

(** [np.median]: middle element of the sorted data, or the average of the
    two middle elements for an even count. *)
Definition np_median (l : list Q) : Q :=
  let s := sort_q l in
  let k := length l in
  if Nat.even k then (nth (k / 2 - 1) s 0 + nth (k / 2) s 0) / 2
  else nth (k / 2) s 0.

(** ** Module-level constants *)

Definition MIN_TEMPO_24FPS : Q := 3 # 2.
Definition REFERENCE_FPS : Q := 24.

(** ** [compute_motion] *)

(** The noise factor of lines 115-121, as a function of the Mean/Median
    ratio. *)
Definition noise_factor_of_ratio (ratio : Q) : Q :=
  if Qlt_le_dec ratio 3 then
    if Qlt_le_dec ratio (3 # 2) then (78 # 100)
    else (78 # 100) + (ratio - (3 # 2)) * ((22 # 100) / (3 # 2))
  else 1.

(** Lines 105-110: the ratio of the average per-pair mean magnitude to
    the average per-pair median magnitude. *)
Definition noise_ratio (mean_list median_list : list Q) : Q :=
  let avg_mean := np_mean mean_list in
  let avg_median := np_mean median_list in
  if Qlt_le_dec (1 # 100) avg_median then avg_mean / avg_median else 5.

Section Motion.

(** A decoded frame, its grayscale conversion, the dense Farneback flow
    between two grayscale frames (one [(dx, dy)] per pixel) and the
    floating-point square root are opaque to this development. *)
Variable Frame Gray : Type.
Variable cvtColor : Frame -> Gray.
Variable calcOpticalFlowFarneback : Gray -> Gray -> list (Q * Q).
Variable sqrt : Q -> Q.

Definition magnitudes (flow : list (Q * Q)) : list Q :=
  map (fun '(dx, dy) => sqrt (dx * dx + dy * dy)) flow.

(** Per pair of frames: the [np.mean] and [np.median] of the flow
    magnitude and the motion value appended to [motion]. *)
Definition pair_motion (compensate_camera : bool) (f1 f2 : Frame) : Q * Q * Q :=
  let flow := calcOpticalFlowFarneback (cvtColor f1) (cvtColor f2) in
  let mag := magnitudes flow in
  let m := np_mean mag in
  let md := np_median mag in
  if compensate_camera then
    let median_dx := np_median (map fst flow) in
    let median_dy := np_median (map snd flow) in
    let camera_mag := sqrt (median_dx * median_dx + median_dy * median_dy) in
    let flow_compensated := map (fun '(dx, dy) => (dx - median_dx, dy - median_dy)) flow in
    let subject_motion := np_mean (magnitudes flow_compensated) in
    (m, md, subject_motion * (1 # 2) + camera_mag * (1 # 2))
  else (m, md, m).

(** The consecutive pairs [(frames[i], frames[i+1])] for
    [i in range(len(frames) - 1)]. *)
Fixpoint frame_pairs (frames : list Frame) : list (Frame * Frame) :=
  match frames with
  | f1 :: ((f2 :: _) as rest) => (f1, f2) :: frame_pairs rest
  | _ => []
  end.

Definition compute_motion (frames : list Frame) (compensate_camera : bool) : list Q * Q :=
  let stats := map (fun '(f1, f2) => pair_motion compensate_camera f1 f2) (frame_pairs frames) in
  let mean_list := map (fun '(m, _, _) => m) stats in
  let median_list := map (fun '(_, md, _) => md) stats in
  let motion := map (fun '(_, _, v) => v) stats in
  (motion, noise_factor_of_ratio (noise_ratio mean_list median_list)).

End Motion.

(** ** [scipy.ndimage.gaussian_filter1d] *)

(** [numpy.arange(lo, hi)] on integers. *)
Definition zrange (lo hi : Z) : list Z :=
  map (fun k => (lo + Z.of_nat k)%Z) (seq 0 (Z.to_nat (hi - lo))).

(** Index of the sample read at position [k] under [mode='reflect']
    ([d c b a | a b c d | d c b a]): the extension is periodic with
    period [2n] and mirrored about the outer edge of the last sample. *)
Definition reflect_index (n k : Z) : Z :=
  let m := (k mod (2 * n))%Z in
  if (m <? n)%Z then m else (2 * n - 1 - m)%Z.

(** [sum_j weights[j] * input[reflect(pos + j)]]. *)
Fixpoint correlate_at (input : list Q) (n pos : Z) (weights : list Q) : Q :=
  match weights with
  | [] => 0
  | w :: ws =>
      w * nth (Z.to_nat (reflect_index n pos)) input 0
      + correlate_at input n (pos + 1) ws
  end.

(** [scipy.ndimage.correlate1d(input, weights, mode='reflect', origin=0)]:
    [out[i] = sum_j weights[j] * input[i + j - len(weights) // 2]]. *)
Definition correlate1d (input weights : list Q) : list Q :=
  let n := Z.of_nat (length input) in
  let r := Z.of_nat (Nat.div (length weights) 2) in
  map (fun i => correlate_at input n (i - r) weights) (zrange 0 n).

Section Gaussian.

(** [numpy.exp], opaque: the development only uses that it is
    positive where it is needed. *)
Variable exp : Q -> Q.

(** [_gaussian_kernel1d(sigma, 0, radius)]. *)
Definition gaussian_kernel1d (sigma : Q) (radius : Z) : list Q :=
  let phi_x :=
    map (fun x => exp (- (1 # 2) / (sigma * sigma) * (inject_Z x * inject_Z x)))
        (zrange (- radius) (radius + 1)) in
  let total := Qsum phi_x in
  map (fun p => p / total) phi_x.

(** [gaussian_filter1d(input, sigma)] with the defaults [order=0],
    [mode='reflect'], [truncate=4.0]. *)
Definition gaussian_filter1d (input : list Q) (sigma : Q) : list Q :=
  let lw := py_int (4 * sigma + (1 # 2)) in
  correlate1d input (rev (gaussian_kernel1d sigma lw)).

(** ** [compute_speed_curve_smart] *)

(** Line 155. The planner reaches it only with [fps <> 0]: Python's
    [REFERENCE_FPS / fps] raises [ZeroDivisionError] at [0]. *)
Definition min_acceptable (fps : Q) : Q := MIN_TEMPO_24FPS * (REFERENCE_FPS / fps).

(** Lines 149-150. *)
Definition ref_frames_of (fps : Q) (n : nat) : Z :=
  Z.min (Z.max 10 (py_int fps)) (Z.of_nat n / 4).

Definition borderline_threshold (min_acc : Q) : Q := min_acc * (85 # 100).

Inductive zone := Fast | Borderline | Slow.

(** The three-way decision of lines 165-186. *)
Definition zone_of (beginning_raw min_acc : Q) : zone :=
  if Qlt_le_dec beginning_raw min_acc then
    if Qlt_le_dec beginning_raw (borderline_threshold min_acc) then Slow
    else Borderline
  else Fast.

(** [(reference_tempo, correction_strength)] chosen in lines 165-192. *)
Definition plan_zone (beginning_raw beginning_subject min_acc noise_factor : Q) : Q * Q :=
  match zone_of beginning_raw min_acc with
  | Fast => (beginning_subject, 1 # 2)
  | Borderline =>
      let pct_of_min := beginning_raw / min_acc in
      if Qlt_le_dec noise_factor (95 # 100) then
        let boost := 1 + (1 - pct_of_min) * ((4 # 10) / (15 # 100)) in
        let correction_strength := (3 # 10) + (1 - pct_of_min) * ((4 # 10) / (15 # 100)) in
        (beginning_subject * Qmin boost (14 # 10), Qmin correction_strength (7 # 10))
      else (beginning_subject * (105 # 100), 3 # 10)
  | Slow =>
      let target_tempo := min_acc * (12 # 10) in
      (Qmax (beginning_subject * (22 # 10)) target_tempo, 95 # 100)
  end.

(** One iteration of the loop of lines 200-214 ([speed[i]] starts at
    [1.0] and is left there when [ratio == 1]). *)
Definition speed_at (reference_tempo correction_strength max_speedup max_slowdown s : Q) : Q :=
  let ratio := s / reference_tempo in
  if Qlt_le_dec ratio 1 then
    let speed_needed := reference_tempo / (s + (1 # 1000)) in
    Qmin (1 + (speed_needed - 1) * correction_strength) max_speedup
  else if Qlt_le_dec 1 ratio then
    let speed_needed := reference_tempo / (s + (1 # 1000)) in
    Qmax (1 + (speed_needed - 1) * correction_strength) max_slowdown
  else 1.

(** Where the planner stands before its final smoothing pass: either
    one of the two early returns (with its result), or the clamped
    per-sample multipliers of line 214. *)
Inductive stage :=
| Early (beginning_raw reference_tempo : Q) (smoothed speed : list Q)
| Clamped (beginning_raw reference_tempo : Q) (smoothed_subject speed : list Q).

Definition stage_beginning_raw (st : stage) : Q :=
  match st with
  | Early br _ _ _ | Clamped br _ _ _ => br
  end.

(** Lines 148-214, on the smoothed series of a clip of [n >= 10]
    samples. [None] is an exception: [ZeroDivisionError] at [fps == 0]
    (line 155) or [IndexError] in the loop when the subject series is
    shorter than the raw one. *)
Definition plan_smoothed (n : nat) (smoothed_raw smoothed_subject : list Q)
    (fps max_speedup max_slowdown noise_factor : Q) : option stage :=
  let ref_frames := Z.to_nat (ref_frames_of fps n) in
  let beginning_raw := np_mean (firstn ref_frames smoothed_raw) in
  let beginning_subject := np_mean (firstn ref_frames smoothed_subject) in
  if Qeq_bool fps 0 then None
  else
    let '(reference_tempo, correction_strength) :=
      plan_zone beginning_raw beginning_subject (min_acceptable fps) noise_factor in
    if Qlt_le_dec reference_tempo (1 # 1000) then
      Some (Early beginning_raw reference_tempo smoothed_subject (repeat 1 n))
    else if (length smoothed_subject <? n)%nat then None
    else
      Some (Clamped beginning_raw reference_tempo smoothed_subject
              (map (speed_at reference_tempo correction_strength max_speedup max_slowdown)
                   (firstn n smoothed_subject))).

(** Lines 140-214. *)
Definition speed_curve_stage (raw_motion subject_motion : list Q)
    (fps smoothing max_speedup max_slowdown noise_factor : Q) : option stage :=
  let n := length raw_motion in
  if (n <? 10)%nat then
    Some (Early (np_mean raw_motion) (np_mean raw_motion) raw_motion (repeat 1 n))
  else
    plan_smoothed n (gaussian_filter1d raw_motion smoothing)
      (gaussian_filter1d subject_motion smoothing) fps max_speedup max_slowdown noise_factor.

(** Lines 220-223: the gentle ramp over the first
    [min(int(fps), n // 5)] samples. *)
Definition ramp (fps : Q) (speed : list Q) : list Q :=
  let n := length speed in
  let ramp_frames := Z.min (py_int fps) (Z.of_nat n / 5) in
  map (fun '(i, v) =>
         if (Z.of_nat i <? ramp_frames)%Z then
           let blend := inject_Z (Z.of_nat i) / inject_Z ramp_frames in
           1 + (v - 1) * blend * blend
         else v)
      (combine (seq 0 n) speed).

(** [compute_speed_curve_smart]: returns
    [(beginning_raw, reference_tempo, smoothed_subject, speed)]. *)
Definition compute_speed_curve_smart (raw_motion subject_motion : list Q)
    (fps smoothing max_speedup max_slowdown noise_factor : Q)
    : option (Q * Q * list Q * list Q) :=
  match speed_curve_stage raw_motion subject_motion fps smoothing max_speedup max_slowdown noise_factor with
  | None => None
  | Some (Early br rt sm sp) => Some (br, rt, sm, sp)
  | Some (Clamped br rt sm sp) => Some (br, rt, sm, ramp fps (gaussian_filter1d sp smoothing))
  end.

End Gaussian.

(** ** [apply_speed_curve] *)

(** [np.cumsum] of [l], each partial sum offset by [acc]. *)
Fixpoint cumsum_from (acc : Q) (l : list Q) : list Q :=
  match l with
  | [] => []
  | x :: r => (acc + x) :: cumsum_from (acc + x) r
  end.

(** Lines 234-236: [np.insert(np.cumsum(1.0 / speed_curve), 0, 0)].
    A zero multiplier gives an infinite duration in numpy; the results
    below on the time axis are stated for positive multipliers. *)
Definition cumulative_times (speed_curve : list Q) : list Q :=
  0 :: cumsum_from 0 (map (fun s => 1 / s) speed_curve).

(** Lines 240-242. [int()] raises on the [nan] mean of an empty curve
    ([ValueError]) and on [n / 0.0] ([OverflowError], or [ValueError]
    on [nan] when [n = 0]). *)
Definition n_output_of (n : nat) (speed_curve : list Q) : option Z :=
  match speed_curve with
  | [] => None
  | _ :: _ =>
      let avg_speed := np_mean speed_curve in
      if Qeq_bool avg_speed 0 then None
      else Some (Z.max (py_int (inject_Z (Z.of_nat n) / avg_speed)) (Z.of_nat n / 3))
  end.

(** [np.linspace(start, stop, num)] with [endpoint=True]. *)
Definition linspace (start stop : Q) (num : Z) : list Q :=
  if (num <=? 0)%Z then []
  else if (num =? 1)%Z then [start]
  else map (fun k => start + inject_Z k * ((stop - start) / inject_Z (num - 1))) (zrange 0 num).

(** [np.searchsorted(a, v, side='right')]: the number of leading entries
    of [a] that are [<= v].  On a sorted [a] (the only case the resampler
    meets with positive multipliers) this is numpy's insertion point. *)
Fixpoint searchsorted_right (a : list Q) (v : Q) : nat :=
  match a with
  | [] => O
  | x :: r => if Qle_bool x v then S (searchsorted_right r v) else O
  end.

(** [np.clip(x, lo, hi)] = [minimum(maximum(x, lo), hi)]. *)
Definition clip (x lo hi : Z) : Z := Z.min (Z.max x lo) hi.

(** Lines 232-249: the index of the input frame picked for each output
    time. *)
Definition resample_indices (n : nat) (speed_curve : list Q) : option (list Z) :=
  match n_output_of n speed_curve with
  | None => None
  | Some n_output =>
      let cumulative := cumulative_times speed_curve in
      let total_output_time := last cumulative 0 in
      Some (map (fun out_t =>
                   clip (Z.of_nat (searchsorted_right cumulative out_t) - 1) 0 (Z.of_nat n - 1))
                (linspace 0 total_output_time n_output))
  end.

Section Resample.

Variable A : Type.

(** Python's [frames[idx]] (negative indices count from the end;
    out of range raises [IndexError]). *)
Definition py_getitem (l : list A) (i : Z) : option A :=
  if (i <? 0)%Z then
    let j := (Z.of_nat (length l) + i)%Z in
    if (j <? 0)%Z then None else nth_error l (Z.to_nat j)
  else nth_error l (Z.to_nat i).

Fixpoint getitems (l : list A) (idxs : list Z) : option (list A) :=
  match idxs with
  | [] => Some []
  | i :: r =>
      match py_getitem l i, getitems l r with
      | Some x, Some xs => Some (x :: xs)
      | _, _ => None
      end
  end.

Definition apply_speed_curve (frames : list A) (speed_curve : list Q) : option (list A) :=
  match resample_indices (length frames) speed_curve with
  | None => None
  | Some idxs => getitems frames idxs
  end.

End Resample.

(** ** [process_video] *)

(** Lines 436-438: an fps outside [(0, 120]] is replaced by
    [REFERENCE_FPS]. *)
Definition sanitize_fps (fps : Q) : Q :=
  if Qle_bool fps 0 || negb (Qle_bool fps 120) then REFERENCE_FPS else fps.

Section Pipeline.

Variable Frame Gray : Type.
Variable cvtColor : Frame -> Gray.
Variable calcOpticalFlowFarneback : Gray -> Gray -> list (Q * Q).
Variable sqrt : Q -> Q.
Variable exp : Q -> Q.

(** Lines 436-501 of [process_video], from the decoded frames and their
    fps to the normalized frames.  The report of line 498 evaluates
    [np.min(speed)], which raises [ValueError] on an empty curve; the
    other prints cannot raise.  Writing the videos and the analysis
    after line 501 are left out. *)
Definition normalize_frames (frames : list Frame) (fps0 : Q) : option (list Frame) :=
  let fps := sanitize_fps fps0 in
  let '(motion_raw, _) :=
    compute_motion Frame Gray cvtColor calcOpticalFlowFarneback sqrt frames false in
  let '(motion_subject, noise_factor) :=
    compute_motion Frame Gray cvtColor calcOpticalFlowFarneback sqrt frames true in
  let motion_raw_adjusted := map (fun x => x * noise_factor) motion_raw in
  match compute_speed_curve_smart exp motion_raw_adjusted motion_subject fps 10 2 (6 # 10)
          noise_factor with
  | None => None
  | Some (_, _, _, speed) =>
      match speed with
      | [] => None
      | _ :: _ => apply_speed_curve Frame frames speed
      end
  end.

End Pipeline.

(** ** The spec's formulas, for comparison with the code *)

(** Python's [round] on a float (halves go to the even neighbour). *)
Definition py_round (q : Q) : Z :=
  let f := Qfloor q in
  let d := q - inject_Z f in
  if Qlt_le_dec d (1 # 2) then f
  else if Qlt_le_dec (1 # 2) d then (f + 1)%Z
  else if Z.even f then f else (f + 1)%Z.

(** The output count as the spec words it: [round(n / mean(speed))],
    clamped to at least [n/3]. *)
Definition spec_output_count (n : nat) (speed_curve : list Q) : Q :=
  Qmax (inject_Z (py_round (inject_Z (Z.of_nat n) / np_mean speed_curve)))
       (inject_Z (Z.of_nat n) / 3).

(** The reference window as the spec words it:
    [clamp(max(10, round(fps)), 1, n/4)]. *)
Definition spec_ref_frames (fps : Q) (n : nat) : Q :=
  Qmin (Qmax (inject_Z (Z.max 10 (py_round fps))) 1) (inject_Z (Z.of_nat n) / 4).

(** A positive rational stand-in for [numpy.exp] (its (0,2) Pade
    approximant), to run the planner on concrete inputs. *)
Definition exp_pade (x : Q) : Q := / (1 - x + x * x / 2).

(** A rational stand-in for the floating-point square root, exact on
    squares of rationals, to run [compute_motion] on concrete flows. *)
Definition q_sqrt (x : Q) : Q :=
  let y := Qred x in Z.sqrt (Qnum y) # Pos.sqrt (Qden y).

(** A flow in which every pixel moves by the difference of two scalar
    "frames": a pure horizontal pan, over four pixels. *)
Definition shift_flow (g1 g2 : Q) : list (Q * Q) := repeat (g2 - g1, 0) 4.

(** Concrete inputs for the examples below. *)
Definition witness_subject : list Q := [0; 1 # 2; 1; 3 # 2; 2; 5 # 2; 3; 1; 0; 2; 1; 4].

Definition witness_frames : list Q := [0; 1; 3; 6; 6; 7; 9; 12; 13; 13; 15; 18].

(** * Properties *)

Ltac destruct_decs :=
  repeat match goal with
         | |- context [Qlt_le_dec ?x ?y] => destruct (Qlt_le_dec x y)
         end.

(** ** Noise factor *)

Lemma noise_factor_bounds (ratio : Q) :
  (78 # 100) <= noise_factor_of_ratio ratio <= 1.
Proof.
  unfold noise_factor_of_ratio.
  destruct (Qlt_le_dec ratio 3); [destruct (Qlt_le_dec ratio (3 # 2))|];
    try setoid_replace ((22 # 100) / (3 # 2)) with (11 # 75) by reflexivity; lra.
Qed.

Lemma noise_factor_monotone (r1 r2 : Q) :
  r1 <= r2 -> noise_factor_of_ratio r1 <= noise_factor_of_ratio r2.
Proof.
  intros H. unfold noise_factor_of_ratio.
  destruct (Qlt_le_dec r1 3), (Qlt_le_dec r2 3);
    try destruct (Qlt_le_dec r1 (3 # 2)); try destruct (Qlt_le_dec r2 (3 # 2));
    try setoid_replace ((22 # 100) / (3 # 2)) with (11 # 75) by reflexivity; lra.
Qed.

(** C2: the noise factor returned by [compute_motion] lies in
    [[0.78, 1.0]] for every clip; as a function of the Mean/Median ratio it
    is exactly 1.0 from 3.0 up, exactly 0.78 up to 1.5, the linear
    interpolation between 0.78 (at 1.5) and 1.0 (at 3.0) on [[1.5, 3.0)],
    non-decreasing, and 0.89 at ratio 2.25. *)
Theorem noise_factor_spec :
  (forall (Frame Gray : Type) (cvt : Frame -> Gray) (flow : Gray -> Gray -> list (Q * Q))
     (sqrt : Q -> Q) (frames : list Frame) (compensate_camera : bool),
     let nf := snd (compute_motion Frame Gray cvt flow sqrt frames compensate_camera) in
     (78 # 100) <= nf <= 1) /\
  (forall ratio, 3 <= ratio -> noise_factor_of_ratio ratio == 1) /\
  (forall ratio, ratio <= (3 # 2) -> noise_factor_of_ratio ratio == (78 # 100)) /\
  (forall ratio, (3 # 2) <= ratio < 3 ->
     noise_factor_of_ratio ratio
     == (78 # 100) + (ratio - (3 # 2)) * ((1 - (78 # 100)) / (3 - (3 # 2)))) /\
  (forall r1 r2, r1 <= r2 -> noise_factor_of_ratio r1 <= noise_factor_of_ratio r2) /\
  noise_factor_of_ratio (9 # 4) == (89 # 100).
Proof.
  split; [|split; [|split; [|split; [|split]]]].
  - intros. apply noise_factor_bounds.
  - intros ratio H. unfold noise_factor_of_ratio.
    destruct (Qlt_le_dec ratio 3); [lra | reflexivity].
  - intros ratio H. unfold noise_factor_of_ratio.
    destruct (Qlt_le_dec ratio 3); [|lra].
    destruct (Qlt_le_dec ratio (3 # 2)); [reflexivity|].
    assert (ratio == 3 # 2) as -> by lra. reflexivity.
  - intros ratio [H1 H2]. unfold noise_factor_of_ratio.
    destruct (Qlt_le_dec ratio 3); [|lra].
    destruct (Qlt_le_dec ratio (3 # 2)); [lra|].
    field.
  - exact noise_factor_monotone.
  - reflexivity.
Qed.

(** ** Minimum acceptable tempo *)

(** C7: for [fps > 0], [min_acceptable] at [2 * fps] is exactly half of
    [min_acceptable] at [fps]. *)
Theorem min_acceptable_double_fps (fps : Q) :
  0 < fps -> min_acceptable (2 * fps) == min_acceptable fps / 2.
Proof.
  intros H. unfold min_acceptable, MIN_TEMPO_24FPS, REFERENCE_FPS.
  field. intros E. rewrite E in H. discriminate.
Qed.

Lemma min_acceptable_double_fps_witness :
  0 < 24 /\ min_acceptable (2 * 24) == min_acceptable 24 / 2.
Proof.
  split; [reflexivity | apply (min_acceptable_double_fps 24); reflexivity].
Defined.

(** ** [compute_motion] on short input *)

Lemma frame_pairs_length {F : Type} (frames : list F) :
  length (frame_pairs F frames) = (length frames - 1)%nat.
Proof.
  induction frames as [|f r IH]; [reflexivity|].
  destruct r as [|g r]; [reflexivity|].
  cbn [frame_pairs length] in *. rewrite IH. lia.
Qed.

(** C8: with fewer than two frames [compute_motion] returns the empty
    motion series and the noise factor 1.0; otherwise it returns one motion
    sample per consecutive pair (so a non-empty series), and it never
    fails. *)
Theorem compute_motion_short_input :
  forall (Frame Gray : Type) (cvt : Frame -> Gray) (flow : Gray -> Gray -> list (Q * Q))
    (sqrt : Q -> Q) (frames : list Frame) (compensate_camera : bool),
    ((length frames < 2)%nat ->
     compute_motion Frame Gray cvt flow sqrt frames compensate_camera = ([], 1)) /\
    length (fst (compute_motion Frame Gray cvt flow sqrt frames compensate_camera))
    = (length frames - 1)%nat.
Proof.
  intros Frame Gray cvt flow sqrt frames c. split.
  - intros H. destruct frames as [|f [|g r]]; [reflexivity | reflexivity | cbn in H; lia].
  - unfold compute_motion. cbn [fst]. rewrite !length_map. apply frame_pairs_length.
Qed.

Lemma compute_motion_short_input_witness :
  compute_motion unit unit (fun f => f) (fun _ _ => [(1, 0)]) (fun x => x) [tt] true = ([], 1).
Proof.
  apply (compute_motion_short_input unit unit (fun f => f) (fun _ _ => [(1, 0)])
           (fun x => x) [tt] true).
  cbn. lia.
Defined.

(** ** Integer conversions *)

Lemma py_int_comp (x y : Q) : x == y -> py_int x = py_int y.
Proof.
  intros E. unfold py_int.
  destruct (Qlt_le_dec x 0), (Qlt_le_dec y 0); try lra.
  - rewrite E. reflexivity.
  - rewrite E. reflexivity.
Qed.

Lemma py_int_nonneg (x : Q) : 0 <= x -> py_int x = Qfloor x.
Proof.
  intros H. unfold py_int. destruct (Qlt_le_dec x 0); [lra | reflexivity].
Qed.

Lemma py_int_zero (x : Q) : x == 0 -> py_int x = 0%Z.
Proof.
  intros E. rewrite (py_int_comp x 0 E). reflexivity.
Qed.

(** ** Reference window *)

(** C5 (corrected): the code truncates [fps] with [int()], it does not
    round it, so at 29.97 fps and 400 samples the window is 29 samples,
    not the 30 of [clamp(max(10, round(fps)), 1, n/4)]. *)
Lemma ref_window_not_rounded :
  ~ (forall fps n, (10 <= n)%nat -> inject_Z (ref_frames_of fps n) == spec_ref_frames fps n).
Proof.
  intros H. specialize (H (2997 # 100) 400%nat ltac:(lia)).
  vm_compute in H. discriminate.
Qed.

Lemma ref_frames_bounds (fps : Q) (n : nat) :
  (10 <= n)%nat -> (2 <= ref_frames_of fps n <= Z.of_nat n / 4)%Z.
Proof.
  intros Hn. unfold ref_frames_of.
  assert (2 <= Z.of_nat n / 4)%Z.
  { apply Z.div_le_lower_bound; lia. }
  lia.
Qed.

(** C5 (amended): for a series of [n >= 10] samples the reference window
    is [min(max(10, int(fps)), n // 4)], with [int] truncating toward
    zero ([floor] for [fps >= 0]); it lies between 2 and [n // 4], so a
    lower clamp at 1 never binds; and the planner's beginning raw tempo is
    the mean of that many leading smoothed samples. *)
Theorem ref_window_length :
  forall (exp : Q -> Q) (raw_motion subject_motion : list Q)
    (fps smoothing max_speedup max_slowdown noise_factor : Q),
    let n := length raw_motion in
    (10 <= n)%nat ->
    let k := ref_frames_of fps n in
    k = Z.min (Z.max 10 (py_int fps)) (Z.of_nat n / 4) /\
    (2 <= k <= Z.of_nat n / 4)%Z /\
    (0 <= fps -> k = Z.min (Z.max 10 (Qfloor fps)) (Z.of_nat n / 4)) /\
    (forall st,
       speed_curve_stage exp raw_motion subject_motion fps smoothing
         max_speedup max_slowdown noise_factor = Some st ->
       stage_beginning_raw st
       = np_mean (firstn (Z.to_nat k) (gaussian_filter1d exp raw_motion smoothing))).
Proof.
  intros exp raw subj fps sm msu msd nf n Hn k.
  split; [reflexivity|]. split; [apply ref_frames_bounds; exact Hn|]. split.
  - intros H. unfold k, ref_frames_of. rewrite py_int_nonneg by exact H. reflexivity.
  - intros st Hst. unfold speed_curve_stage in Hst. fold n in Hst.
    destruct (Nat.ltb_spec n 10) as [Hlt|_]; [lia|].
    unfold plan_smoothed in Hst.
    destruct (Qeq_bool fps 0); [discriminate|].
    destruct (plan_zone _ _ _ _) as [rt cs].
    destruct (Qlt_le_dec rt (1 # 1000)).
    + injection Hst as <-. reflexivity.
    + destruct (Nat.ltb _ n); [discriminate|]. injection Hst as <-. reflexivity.
Qed.

Lemma ref_window_length_witness :
  ref_frames_of (2997 # 100) 400 = 29%Z.
Proof.
  destruct (ref_window_length exp_pade (repeat 0 400) (repeat 0 400) (2997 # 100) 10 2 (3 # 5) 1)
    as [H _].
  - vm_compute. lia.
  - rewrite repeat_length in H. rewrite H. vm_compute. reflexivity.
Defined.

(** ** Resampler: output count *)

Lemma zrange_length (lo hi : Z) : length (zrange lo hi) = Z.to_nat (hi - lo).
Proof. unfold zrange. rewrite length_map, length_seq. reflexivity. Qed.

Lemma linspace_length (start stop : Q) (num : Z) :
  length (linspace start stop num) = Z.to_nat num.
Proof.
  unfold linspace.
  destruct (Z.leb_spec num 0); [simpl; lia|].
  destruct (Z.eqb_spec num 1); [subst; reflexivity|].
  rewrite length_map, zrange_length. f_equal. lia.
Qed.

Lemma clip_range (x : Z) (n : nat) :
  (1 <= n)%nat -> (0 <= clip x 0 (Z.of_nat n - 1) < Z.of_nat n)%Z.
Proof. intros H. unfold clip. lia. Qed.

Lemma getitems_in_range {A : Type} (l : list A) (idxs : list Z) :
  (forall i, In i idxs -> (0 <= i < Z.of_nat (length l))%Z) ->
  exists out, getitems A l idxs = Some out /\ length out = length idxs.
Proof.
  induction idxs as [|i r IH]; intros H; [exists []; split; reflexivity|].
  destruct IH as [out [Hout Hlen]]; [intros j Hj; apply H; right; exact Hj|].
  assert (Hi := H i (or_introl eq_refl)).
  cbn [getitems]. unfold py_getitem.
  destruct (Z.ltb_spec i 0); [lia|].
  destruct (nth_error l (Z.to_nat i)) as [x|] eqn:E.
  - rewrite Hout. exists (x :: out). split; [reflexivity | cbn; congruence].
  - apply nth_error_None in E. lia.
Qed.

Lemma n_output_of_some (n : nat) (speed_curve : list Q) :
  speed_curve <> [] -> ~ np_mean speed_curve == 0 ->
  n_output_of n speed_curve
  = Some (Z.max (py_int (inject_Z (Z.of_nat n) / np_mean speed_curve)) (Z.of_nat n / 3)).
Proof.
  intros Hne Hz. unfold n_output_of.
  destruct speed_curve as [|s r]; [congruence|].
  destruct (Qeq_bool (np_mean (s :: r)) 0) eqn:E; [|reflexivity].
  apply Qeq_bool_eq in E. contradiction.
Qed.

Lemma resample_indices_length (n : nat) (speed_curve : list Q) (k : Z) (idxs : list Z) :
  n_output_of n speed_curve = Some k -> resample_indices n speed_curve = Some idxs ->
  length idxs = Z.to_nat k.
Proof.
  intros Hk H. unfold resample_indices in H. rewrite Hk in H.
  injection H as <-. rewrite length_map. apply linspace_length.
Qed.

Lemma Qsum_repeat (c : Q) (m : nat) : Qsum (repeat c m) == c * inject_Z (Z.of_nat m).
Proof.
  induction m as [|m IH]; [simpl; ring|].
  cbn [repeat Qsum fold_right] in *. fold (Qsum (repeat c m)). rewrite IH.
  rewrite Nat2Z.inj_succ. unfold Z.succ. rewrite inject_Z_plus. ring.
Qed.

Lemma np_mean_repeat (c : Q) (m : nat) :
  (1 <= m)%nat -> np_mean (repeat c m) == c.
Proof.
  intros Hm. unfold np_mean. rewrite Qsum_repeat, repeat_length.
  field. intros E. unfold Qeq in E. cbn in E. lia.
Qed.

Lemma resample_indices_range (n : nat) (speed_curve : list Q) (idxs : list Z) :
  (1 <= n)%nat -> resample_indices n speed_curve = Some idxs ->
  forall i, In i idxs -> (0 <= i < Z.of_nat n)%Z.
Proof.
  intros Hn H i Hin. unfold resample_indices in H.
  destruct (n_output_of n speed_curve); [|discriminate].
  injection H as <-. apply in_map_iff in Hin. destruct Hin as [t [<- _]].
  apply clip_range. exact Hn.
Qed.

Lemma apply_speed_curve_count (A : Type) (frames : list A) (speed_curve : list Q) :
  speed_curve <> [] -> ~ np_mean speed_curve == 0 ->
  let n := Z.of_nat (length frames) in
  exists out, apply_speed_curve A frames speed_curve = Some out /\
    Z.of_nat (length out) = Z.max (py_int (inject_Z n / np_mean speed_curve)) (n / 3).
Proof.
  intros Hne Hz n.
  pose proof (n_output_of_some (length frames) speed_curve Hne Hz) as Hk.
  unfold apply_speed_curve.
  destruct (resample_indices (length frames) speed_curve) as [idxs|] eqn:Hi.
  2:{ unfold resample_indices in Hi. rewrite Hk in Hi. discriminate. }
  pose proof (resample_indices_length _ _ _ _ Hk Hi) as Hlen.
  destruct frames as [|f fs].
  - (* no frame: the count is 0 and nothing is looked up *)
    assert (Hz0 : py_int (inject_Z 0 / np_mean speed_curve) = 0%Z).
    { apply py_int_zero. unfold Qdiv. apply Qmult_0_l. }
    unfold n in *. cbn [length] in *. cbn [Z.of_nat] in *. rewrite Hz0 in *.
    destruct idxs; [|cbn in Hlen; lia].
    exists []. split; reflexivity.
  - destruct (getitems_in_range (f :: fs) idxs) as [out [Hout Hl]].
    { apply (resample_indices_range _ speed_curve); [cbn; lia | exact Hi]. }
    exists out. split; [exact Hout|].
    rewrite Hl, Hlen. unfold n.
    rewrite Z2Nat.id; [reflexivity|].
    apply Z.le_trans with (Z.of_nat (length (f :: fs)) / 3)%Z; [|lia].
    apply Z.div_pos; lia.
Qed.

(** C4 (corrected): the code truncates [n / mean(speed)] with [int()];
    with 10 frames and a uniform curve of 1.5 it emits 6 frames where
    [round(10 / 1.5)] clamped to at least [10/3] gives 7. *)
Lemma output_count_not_rounded :
  ~ (forall (frames : list nat) (speed_curve : list Q) (out : list nat),
       apply_speed_curve nat frames speed_curve = Some out ->
       inject_Z (Z.of_nat (length out)) == spec_output_count (length frames) speed_curve).
Proof.
  intros H.
  specialize (H (seq 0 10) (repeat (3 # 2) 10)
                [0; 2; 4; 6; 8; 9]%nat ltac:(vm_compute; reflexivity)).
  vm_compute in H. discriminate.
Qed.

(** C4 (amended): for a non-empty speed curve with non-zero mean the
    resampler returns [max(int(n / mean(speed)), n // 3)] frames, [int]
    truncating toward zero (an empty curve or a zero mean makes [int()]
    raise); 90 frames with a uniform curve of 2.0 give 45 frames. *)
Theorem output_count :
  (forall (A : Type) (frames : list A) (speed_curve : list Q),
     speed_curve <> [] -> ~ np_mean speed_curve == 0 ->
     let n := Z.of_nat (length frames) in
     exists out, apply_speed_curve A frames speed_curve = Some out /\
       Z.of_nat (length out) = Z.max (py_int (inject_Z n / np_mean speed_curve)) (n / 3)) /\
  (forall (A : Type) (frames : list A) (m : nat),
     length frames = 90%nat -> (1 <= m)%nat ->
     exists out, apply_speed_curve A frames (repeat 2 m) = Some out /\ length out = 45%nat).
Proof.
  split; [exact apply_speed_curve_count|].
  intros A frames m Hf Hm.
  assert (Hmean := np_mean_repeat 2 m Hm).
  destruct (apply_speed_curve_count A frames (repeat 2 m)) as [out [Hout Hl]].
  - destruct m; [lia | discriminate].
  - rewrite Hmean. discriminate.
  - exists out. split; [exact Hout|].
    rewrite Hf in Hl.
    rewrite (py_int_comp _ 45) in Hl.
    + cbn in Hl. lia.
    + rewrite Hmean. reflexivity.
Qed.

Lemma output_count_witness :
  exists out, apply_speed_curve nat (seq 0 90) (repeat 2 89) = Some out /\ length out = 45%nat.
Proof.
  apply (proj2 output_count nat (seq 0 90) 89%nat); vm_compute; [reflexivity | lia].
Defined.

(** ** Resampler: order of the time axis and of the picked frames *)

Lemma duration_pos (s : Q) : 0 < s -> 0 < 1 / s.
Proof. intros H. unfold Qdiv. rewrite Qmult_1_l. apply Qinv_lt_0_compat, H. Qed.

Lemma cumsum_from_sorted (acc : Q) (ds : list Q) :
  Forall (fun d => 0 < d) ds -> Sorted Qlt (acc :: cumsum_from acc ds).
Proof.
  revert acc. induction ds as [|d r IH]; intros acc H; [repeat constructor|].
  inversion H as [|? ? Hd Hr]; subst.
  cbn [cumsum_from]. constructor; [apply IH, Hr|].
  constructor. lra.
Qed.

Lemma durations_pos (speed_curve : list Q) :
  Forall (fun s => 0 < s) speed_curve -> Forall (fun d => 0 < d) (map (fun s => 1 / s) speed_curve).
Proof.
  intros H. apply Forall_map. eapply Forall_impl; [|exact H]. intros s. apply duration_pos.
Qed.

Lemma cumulative_times_sorted (speed_curve : list Q) :
  Forall (fun s => 0 < s) speed_curve -> StronglySorted Qlt (cumulative_times speed_curve).
Proof.
  intros H. apply Sorted_StronglySorted; [intros x y z; apply Qlt_trans|].
  apply cumsum_from_sorted, durations_pos, H.
Qed.

Lemma last_cumsum_nonneg (acc d : Q) (ds : list Q) :
  0 <= acc -> Forall (fun x => 0 <= x) ds -> 0 <= last (acc :: cumsum_from acc ds) d.
Proof.
  revert acc. induction ds as [|x r IH]; intros acc Ha H; [exact Ha|].
  inversion H; subst. cbn [cumsum_from].
  change (0 <= last ((acc + x) :: cumsum_from (acc + x) r) d).
  apply IH; [lra | assumption].
Qed.

Lemma sorted_map_seq {B : Type} (R : B -> B -> Prop) (f : nat -> B) (a m : nat) :
  (forall i, R (f i) (f (S i))) -> Sorted R (map f (seq a m)).
Proof.
  intros Hf. revert a. induction m as [|m IH]; intros a; [constructor|].
  cbn [seq map]. constructor; [apply IH|].
  destruct m; [constructor | cbn; constructor; apply Hf].
Qed.

Lemma linspace_sorted (stop : Q) (num : Z) :
  0 <= stop -> Sorted Qle (linspace 0 stop num).
Proof.
  intros H. unfold linspace.
  destruct (Z.leb_spec num 0); [constructor|].
  destruct (Z.eqb_spec num 1); [repeat constructor|].
  unfold zrange. rewrite map_map. apply sorted_map_seq.
  intros i. assert (0 <= (stop - 0) / inject_Z (num - 1)) as Hstep.
  { apply Qle_shift_div_l; [|lra].
    unfold Qlt. cbn. lia. }
  rewrite !Nat2Z.inj_succ. unfold Z.succ. rewrite Z.add_0_l, Z.add_0_l, inject_Z_plus.
  set (step := (stop - 0) / inject_Z (num - 1)) in *.
  clearbody step. change (inject_Z 1) with 1. rewrite Qmult_plus_distr_l. lra.
Qed.

Lemma searchsorted_right_mono (a : list Q) (v v' : Q) :
  v <= v' -> (searchsorted_right a v <= searchsorted_right a v')%nat.
Proof.
  intros H. induction a as [|x r IH]; [reflexivity|]. cbn [searchsorted_right].
  destruct (Qle_bool x v) eqn:E1; destruct (Qle_bool x v') eqn:E2; try lia.
  apply Qle_bool_iff in E1. apply not_true_iff_false in E2.
  exfalso. apply E2, Qle_bool_iff. lra.
Qed.

Lemma Sorted_map {B C : Type} (R : B -> B -> Prop) (R' : C -> C -> Prop) (f : B -> C) (l : list B) :
  (forall x y, R x y -> R' (f x) (f y)) -> Sorted R l -> Sorted R' (map f l).
Proof.
  intros Hf H. induction H as [|x l Hs IH Hd]; cbn; constructor; [exact IH|].
  destruct Hd; cbn; constructor. apply Hf. assumption.
Qed.

Lemma resample_indices_sorted (n : nat) (speed_curve : list Q) (idxs : list Z) :
  Forall (fun s => 0 < s) speed_curve ->
  resample_indices n speed_curve = Some idxs -> Sorted Z.le idxs.
Proof.
  intros Hp H. unfold resample_indices in H.
  destruct (n_output_of n speed_curve) as [k|]; [|discriminate].
  pose proof (searchsorted_right_mono (cumulative_times speed_curve)) as Hmono.
  assert (Hlast : 0 <= last (cumulative_times speed_curve) 0).
  { apply last_cumsum_nonneg; [lra|].
    eapply Forall_impl; [|apply durations_pos, Hp]. intros d Hd. cbv beta in Hd. lra. }
  remember (cumulative_times speed_curve) as cum eqn:Ecum.
  injection H as <-.
  apply (Sorted_map Qle); [|apply linspace_sorted, Hlast].
  intros x y Hxy. unfold clip. pose proof (Hmono x y Hxy). lia.
Qed.


Lemma linspace_head (stop : Q) (num : Z) :
  (1 <= num)%Z -> exists t rest, linspace 0 stop num = t :: rest /\ t == 0.
Proof.
  intros H. unfold linspace.
  destruct (Z.leb_spec num 0); [lia|].
  destruct (Z.eqb_spec num 1); [exists 0, []; split; reflexivity|].
  unfold zrange. destruct (Z.to_nat (num - 0)) eqn:E; [lia|].
  cbn [seq map]. eexists _, _. split; [reflexivity|]. cbn. ring.
Qed.

Lemma searchsorted_at_zero (speed_curve : list Q) (t : Q) :
  Forall (fun s => 0 < s) speed_curve -> t == 0 ->
  searchsorted_right (cumulative_times speed_curve) t = 1%nat.
Proof.
  intros Hp Ht. unfold cumulative_times. cbn [searchsorted_right].
  replace (Qle_bool 0 t) with true by (symmetry; apply Qle_bool_iff; lra).
  destruct speed_curve as [|s r]; [reflexivity|].
  inversion Hp as [|? ? Hs _]; subst.
  cbn [map cumsum_from searchsorted_right].
  pose proof (duration_pos s Hs).
  destruct (Qle_bool (0 + 1 / s) t) eqn:E; [|reflexivity].
  apply Qle_bool_iff in E. lra.
Qed.

Lemma resample_indices_head (n : nat) (speed_curve : list Q) (idxs : list Z) (i : Z) :
  (1 <= n)%nat -> Forall (fun s => 0 < s) speed_curve ->
  resample_indices n speed_curve = Some idxs -> hd_error idxs = Some i -> i = 0%Z.
Proof.
  intros Hn Hp H Hi. unfold resample_indices in H.
  destruct (n_output_of n speed_curve) as [k|]; [|discriminate].
  pose proof (searchsorted_at_zero speed_curve) as Hzero.
  remember (cumulative_times speed_curve) as cum eqn:Ecum.
  injection H as <-.
  destruct (Z.leb_spec 1 k) as [Hk|Hk].
  - destruct (linspace_head (last cum 0) k Hk) as [t [rest [E Ht]]].
    rewrite E in Hi. cbn in Hi. injection Hi as <-.
    rewrite (Hzero t Hp Ht). unfold clip. lia.
  - unfold linspace in Hi. destruct (Z.leb_spec k 0); [discriminate | lia].
Qed.

Lemma getitems_nth {A : Type} (l : list A) (idxs : list Z) (out : list A) :
  (forall i, In i idxs -> (0 <= i)%Z) -> getitems A l idxs = Some out ->
  Forall2 (fun i x => nth_error l (Z.to_nat i) = Some x) idxs out.
Proof.
  revert out. induction idxs as [|i r IH]; intros out Hnn H.
  - injection H as <-. constructor.
  - cbn [getitems] in H. unfold py_getitem in H.
    destruct (Z.ltb_spec i 0) as [Hlt|_]; [specialize (Hnn i (or_introl eq_refl)); lia|].
    destruct (nth_error l (Z.to_nat i)) as [x|] eqn:Ex; [|discriminate].
    destruct (getitems A l r) as [xs|] eqn:Exs; [|discriminate].
    injection H as <-. constructor; [exact Ex|].
    apply IH; [intros j Hj; apply Hnn; right; exact Hj | reflexivity].
Qed.

Lemma Qsum_pos (l : list Q) : l <> [] -> Forall (fun s => 0 < s) l -> 0 < Qsum l.
Proof.
  induction l as [|x r IH]; intros Hne Hp; [congruence|].
  inversion Hp as [|? ? Hx Hr]; subst. cbn [Qsum fold_right]. fold (Qsum r).
  destruct r as [|y r']; [cbn; lra|].
  specialize (IH ltac:(discriminate) Hr). lra.
Qed.

Lemma np_mean_pos (l : list Q) : l <> [] -> Forall (fun s => 0 < s) l -> 0 < np_mean l.
Proof.
  intros Hne Hp. unfold np_mean. apply Qlt_shift_div_l.
  - destruct l; [congruence|]. unfold Qlt. cbn. lia.
  - rewrite Qmult_0_l. apply Qsum_pos; assumption.
Qed.

(** C10: for a non-empty clip and a speed curve of strictly positive
    multipliers, the cumulative time axis is strictly increasing; the
    resampler returns (for a non-empty curve) the frames at a
    non-decreasing sequence of input indices, so the output keeps the input
    order; and the first emitted frame, if any, is the first input frame. *)
Theorem resampler_order :
  forall (A : Type) (frames : list A) (speed_curve : list Q),
    frames <> [] -> Forall (fun s => 0 < s) speed_curve ->
    StronglySorted Qlt (cumulative_times speed_curve) /\
    (speed_curve <> [] -> exists out, apply_speed_curve A frames speed_curve = Some out) /\
    (forall out, apply_speed_curve A frames speed_curve = Some out ->
       exists idxs,
         resample_indices (length frames) speed_curve = Some idxs /\
         Sorted Z.le idxs /\
         Forall2 (fun i x => nth_error frames (Z.to_nat i) = Some x) idxs out /\
         (forall x, hd_error out = Some x -> hd_error frames = Some x)).
Proof.
  intros A frames sc Hf Hp.
  assert (Hn : (1 <= length frames)%nat) by (destruct frames; [congruence | cbn; lia]).
  split; [apply cumulative_times_sorted, Hp|]. split.
  - intros Hne.
    destruct (apply_speed_curve_count A frames sc Hne) as [out [Hout _]].
    + pose proof (np_mean_pos sc Hne Hp). intros E. rewrite E in H. discriminate.
    + exists out. exact Hout.
  - intros out H. unfold apply_speed_curve in H.
    destruct (resample_indices (length frames) sc) as [idxs|] eqn:Hi; [|discriminate].
    exists idxs. split; [reflexivity|]. split; [eapply resample_indices_sorted; eassumption|].
    assert (Hrange := resample_indices_range _ _ _ Hn Hi).
    assert (H2 : Forall2 (fun i x => nth_error frames (Z.to_nat i) = Some x) idxs out).
    { apply getitems_nth; [|exact H]. intros i Hin. apply Hrange in Hin. lia. }
    split; [exact H2|].
    intros x Hx. destruct H2 as [|i x' idxs' out' Hix _]; [discriminate|].
    cbn in Hx. injection Hx as ->.
    rewrite (resample_indices_head _ _ _ i Hn Hp Hi eq_refl) in Hix.
    destruct frames; [congruence | exact Hix].
Qed.

Lemma resampler_order_witness :
  apply_speed_curve nat [10; 11; 12; 13]%nat [2; 1; (1 # 2)] = Some [10; 12; 13]%nat /\
  exists out, apply_speed_curve nat [10; 11; 12; 13]%nat [2; 1; (1 # 2)] = Some out.
Proof.
  split; [vm_compute; reflexivity|].
  apply (resampler_order nat [10; 11; 12; 13]%nat [2; 1; (1 # 2)]).
  - discriminate.
  - repeat constructor.
  - discriminate.
Defined.

(** ** Resampler: the all-1.0 curve *)

Lemma durations_ones (m : nat) : map (fun s => 1 / s) (repeat 1 m) = repeat 1 m.
Proof. rewrite map_repeat. reflexivity. Qed.

Lemma inject_nat_nonneg (j : nat) : 0 <= inject_Z (Z.of_nat j).
Proof. unfold Qle. cbn. lia. Qed.

Lemma inject_nat_succ (j : nat) : inject_Z (Z.of_nat (S j)) == inject_Z (Z.of_nat j) + 1.
Proof. rewrite Nat2Z.inj_succ. unfold Z.succ. rewrite inject_Z_plus. reflexivity. Qed.

Lemma searchsorted_right_cons (x : Q) (r : list Q) (v : Q) :
  searchsorted_right (x :: r) v = if Qle_bool x v then S (searchsorted_right r v) else O.
Proof. reflexivity. Qed.

Lemma searchsorted_ones (k j : nat) (acc t : Q) :
  acc + inject_Z (Z.of_nat j) <= t < acc + inject_Z (Z.of_nat j) + 1 ->
  searchsorted_right (acc :: cumsum_from acc (repeat 1 k)) t = S (Nat.min j k).
Proof.
  revert j acc. induction k as [|k IH]; intros j acc [H1 H2];
    pose proof (inject_nat_nonneg j);
    rewrite searchsorted_right_cons;
    (replace (Qle_bool acc t) with true by (symmetry; apply Qle_bool_iff; lra)).
  - rewrite Nat.min_0_r. reflexivity.
  - cbn [repeat cumsum_from].
    destruct j as [|j].
    + cbn [Z.of_nat] in *. change (inject_Z 0) with 0 in *.
      rewrite searchsorted_right_cons.
      destruct (Qle_bool (acc + 1) t) eqn:E; [|reflexivity].
      apply Qle_bool_iff in E. exfalso. lra.
    + rewrite (IH j (acc + 1)); [reflexivity|].
      rewrite inject_nat_succ in H1, H2. split; lra.
Qed.

Lemma last_cumsum_ones (k : nat) (acc d : Q) :
  last (acc :: cumsum_from acc (repeat 1 k)) d == acc + inject_Z (Z.of_nat k).
Proof.
  revert acc. induction k as [|k IH]; intros acc.
  - cbn. ring.
  - cbn [repeat cumsum_from].
    change (last ((acc + 1) :: cumsum_from (acc + 1) (repeat 1 k)) d == acc + inject_Z (Z.of_nat (S k))).
    rewrite IH, inject_nat_succ. ring.
Qed.

Lemma n_output_ones (n m : nat) :
  (1 <= m)%nat -> n_output_of n (repeat 1 m) = Some (Z.of_nat n).
Proof.
  intros Hm. rewrite n_output_of_some.
  - f_equal. rewrite (py_int_comp _ (inject_Z (Z.of_nat n))).
    + rewrite py_int_nonneg by apply inject_nat_nonneg. rewrite Qfloor_Z.
      apply Z.max_l. apply Z.div_le_upper_bound; lia.
    + rewrite np_mean_repeat by exact Hm. field.
  - destruct m; [lia | discriminate].
  - rewrite np_mean_repeat by exact Hm. discriminate.
Qed.

Lemma getitems_prefix {A : Type} (l1 l2 : list A) :
  getitems A (l1 ++ l2) (map Z.of_nat (seq (length l1) (length l2))) = Some l2.
Proof.
  revert l1. induction l2 as [|x r IH]; intros l1; [reflexivity|].
  cbn [length seq map getitems]. unfold py_getitem.
  destruct (Z.ltb_spec (Z.of_nat (length l1)) 0); [lia|].
  rewrite Nat2Z.id, nth_error_app2, Nat.sub_diag by lia. cbn [nth_error].
  specialize (IH (l1 ++ [x])). rewrite <- app_assoc, length_app in IH. cbn in IH.
  rewrite Nat.add_1_r in IH. rewrite IH. reflexivity.
Qed.

Lemma getitems_all {A : Type} (l : list A) :
  getitems A l (map Z.of_nat (seq 0 (length l))) = Some l.
Proof. exact (getitems_prefix [] l). Qed.

Lemma inject_nat_pred (n : nat) :
  (1 <= n)%nat -> inject_Z (Z.of_nat n - 1) == inject_Z (Z.of_nat n) - 1.
Proof.
  intros Hn. unfold Z.sub. rewrite inject_Z_plus, inject_Z_opp. reflexivity.
Qed.

Lemma scaled_time_bounds (I N : Q) :
  0 <= I -> I + 1 < N -> I <= I * (N / (N - 1)) < I + 1.
Proof.
  intros H0 H1. assert (Hp : 0 < N - 1) by lra.
  setoid_replace (I * (N / (N - 1))) with ((I * N) / (N - 1)) by (field; lra).
  split.
  - apply Qle_shift_div_l; [exact Hp|]. nra.
  - apply Qlt_shift_div_r; [exact Hp|]. nra.
Qed.

(** Where the output time [i * m / (n - 1)] of the all-1.0 curve lands. *)
Lemma ones_time_floor (i n m : nat) :
  (2 <= n)%nat -> (i < n)%nat -> (m = n \/ S m = n) ->
  let t := inject_Z (Z.of_nat i) * (inject_Z (Z.of_nat m) / inject_Z (Z.of_nat n - 1)) in
  exists j, inject_Z (Z.of_nat j) <= t < inject_Z (Z.of_nat j) + 1 /\
            Z.of_nat i = Z.min (Z.max (Z.of_nat (S (Nat.min j m)) - 1) 0) (Z.of_nat n - 1).
Proof.
  intros Hn Hi Hm t. unfold t.
  assert (Hn2 : 2 <= inject_Z (Z.of_nat n)).
  { change 2 with (inject_Z 2). rewrite <- Zle_Qle. lia. }
  pose proof (inject_nat_nonneg i) as Hi0.
  destruct Hm as [-> | Hm].
  - destruct (Nat.eq_dec i (n - 1)) as [Ei|Ei].
    + exists n. split; [|lia]. rewrite (inject_nat_pred n) by lia.
      assert (HI : inject_Z (Z.of_nat i) == inject_Z (Z.of_nat n) - 1).
      { rewrite Ei. unfold Qeq, Qminus, Qplus, Qopp, inject_Z; simpl. lia. }
      rewrite HI.
      setoid_replace ((inject_Z (Z.of_nat n) - 1) * (inject_Z (Z.of_nat n) / (inject_Z (Z.of_nat n) - 1)))
        with (inject_Z (Z.of_nat n)) by (field; lra).
      lra.
    + exists i. split; [|lia]. rewrite (inject_nat_pred n) by lia.
      apply scaled_time_bounds; [exact Hi0|].
      rewrite <- inject_nat_succ. rewrite <- Zlt_Qlt. lia.
  - exists i. split; [|lia]. rewrite (inject_nat_pred n) by lia.
    assert (HM : inject_Z (Z.of_nat m) == inject_Z (Z.of_nat n) - 1).
    { subst n. rewrite Nat2Z.inj_succ. unfold Z.succ. rewrite inject_Z_plus.
      change (inject_Z 1) with 1. lra. }
    rewrite HM.
    setoid_replace (inject_Z (Z.of_nat i) * ((inject_Z (Z.of_nat n) - 1) / (inject_Z (Z.of_nat n) - 1)))
      with (inject_Z (Z.of_nat i)) by (field; lra).
    lra.
Qed.

(** With the all-1.0 curve over [m] steps, [m = n] or [m + 1 = n], output
    frame [i] reads input frame [i]. *)
Lemma resample_indices_ones (n m : nat) :
  (1 <= m)%nat -> (m = n \/ S m = n) ->
  resample_indices n (repeat 1 m) = Some (map Z.of_nat (seq 0 n)).
Proof.
  intros Hm Hnm. unfold resample_indices. rewrite n_output_ones by exact Hm.
  f_equal. unfold cumulative_times. rewrite durations_ones.
  assert (HL : last (0 :: cumsum_from 0 (repeat 1 m)) 0 == inject_Z (Z.of_nat m)).
  { rewrite last_cumsum_ones. ring. }
  remember (last (0 :: cumsum_from 0 (repeat 1 m)) 0) as L eqn:EL. clear EL.
  unfold linspace.
  destruct (Z.leb_spec (Z.of_nat n) 0); [lia|].
  destruct (Z.eqb_spec (Z.of_nat n) 1) as [E1|E1].
  - assert (n = 1%nat) as -> by lia. cbn [map seq]. unfold clip. f_equal. lia.
  - unfold zrange. rewrite map_map, map_map. rewrite Z.sub_0_r, Nat2Z.id.
    apply map_ext_in. intros a Ha. apply in_seq in Ha.
    destruct (ones_time_floor a n m ltac:(lia) ltac:(lia) Hnm) as [j [[Hj1 Hj2] Hidx]].
    assert (Hs : searchsorted_right (0 :: cumsum_from 0 (repeat 1 m))
                   (0 + inject_Z (0 + Z.of_nat a) * ((L - 0) / inject_Z (Z.of_nat n - 1)))
                 = S (Nat.min j m)).
    { apply searchsorted_ones.
      setoid_replace (0 + inject_Z (0 + Z.of_nat a) * ((L - 0) / inject_Z (Z.of_nat n - 1)))
        with (inject_Z (Z.of_nat a) * (inject_Z (Z.of_nat m) / inject_Z (Z.of_nat n - 1))).
      - lra.
      - rewrite HL, Z.add_0_l. unfold Qdiv. ring. }
    rewrite Hs. unfold clip. lia.
Qed.

(** C3 (counterexample): a one-frame clip has an empty motion series, so
    the identity curve the planner returns for it is empty; its mean is
    nan and [int(n / avg_speed)] raises instead of returning the frame. *)
Lemma identity_curve_single_frame_raises :
  repeat 1 0 = [] /\ apply_speed_curve nat [7%nat] (repeat 1 0) = None.
Proof. split; reflexivity. Qed.

(** C3 (amended): for a clip of [n] frames and an all-1.0 curve with one
    entry per motion sample ([n - 1] entries, or [n]), not empty, the
    resampler returns exactly the input frames, in order, with none
    dropped or repeated. *)
Theorem identity_curve_preserves_frames {A : Type} (frames : list A) (m : nat) :
  (1 <= m)%nat -> (S m = length frames \/ m = length frames) ->
  apply_speed_curve A frames (repeat 1 m) = Some frames.
Proof.
  intros Hm Hn. unfold apply_speed_curve.
  rewrite (resample_indices_ones (length frames) m Hm) by tauto.
  apply getitems_all.
Qed.

Lemma identity_curve_preserves_frames_witness :
  (1 <= 4)%nat /\ (S 4 = length [10; 11; 12; 13; 14]%nat \/ 4%nat = length [10; 11; 12; 13; 14]%nat) /\
  apply_speed_curve nat [10; 11; 12; 13; 14]%nat (repeat 1 4) = Some [10; 11; 12; 13; 14]%nat.
Proof.
  split; [lia|]. split; [left; reflexivity|].
  apply identity_curve_preserves_frames; [lia | left; reflexivity].
Defined.

Lemma Qsum_app (l1 l2 : list Q) : Qsum (l1 ++ l2) == Qsum l1 + Qsum l2.
Proof.
  unfold Qsum. induction l1 as [|x r IH]; cbn [fold_right app]; [ring|].
  rewrite IH. ring.
Qed.

Lemma Qsum_rev (l : list Q) : Qsum (rev l) == Qsum l.
Proof.
  induction l as [|x r IH]; [reflexivity|]. cbn [rev]. rewrite Qsum_app, IH.
  unfold Qsum; cbn [fold_right]. ring.
Qed.

Lemma Qsum_map_div (l : list Q) (t : Q) : Qsum (map (fun p => p / t) l) == Qsum l / t.
Proof.
  unfold Qsum. induction l as [|x r IH]; cbn [map fold_right].
  - unfold Qdiv. ring.
  - rewrite IH. unfold Qdiv. ring.
Qed.

Lemma kernel_sum (exp : Q -> Q) (sigma : Q) (r : Z) :
  (forall x, 0 < exp x) -> (0 <= r)%Z -> Qsum (gaussian_kernel1d exp sigma r) == 1.
Proof.
  intros Hexp Hr. unfold gaussian_kernel1d. cbv zeta. rewrite Qsum_map_div.
  set (phi := map _ (zrange (- r) (r + 1))).
  assert (Hpos : 0 < Qsum phi).
  { apply Qsum_pos.
    - intros E. apply (f_equal (@length Q)) in E. unfold phi in E.
      rewrite length_map, zrange_length in E. cbn in E. lia.
    - apply Forall_forall. intros x Hx. unfold phi in Hx.
      apply in_map_iff in Hx. destruct Hx as [z [<- _]]. apply Hexp. }
  field. intros E. rewrite E in Hpos. discriminate.
Qed.

Lemma reflect_index_range (n k : Z) : (0 < n)%Z -> (0 <= reflect_index n k < n)%Z.
Proof.
  intros Hn. unfold reflect_index.
  pose proof (Z.mod_pos_bound k (2 * n) ltac:(lia)).
  destruct (Z.ltb_spec (k mod (2 * n)) n); lia.
Qed.

Lemma correlate_at_const (input : list Q) (c : Q) (n pos : Z) (ws : list Q) :
  (0 < n)%Z -> length input = Z.to_nat n -> Forall (fun x => x == c) input ->
  correlate_at input n pos ws == c * Qsum ws.
Proof.
  intros Hn Hl Hc. rewrite Forall_nth in Hc. revert pos.
  induction ws as [|w ws IH]; intros pos; cbn [correlate_at].
  - unfold Qsum; cbn. ring.
  - rewrite IH. pose proof (reflect_index_range n pos Hn).
    rewrite (Hc _ 0) by lia. unfold Qsum; cbn [fold_right]. ring.
Qed.

Lemma py_int_nonneg_floor (x : Q) : 0 <= x -> (0 <= py_int x)%Z.
Proof.
  intros H. rewrite py_int_nonneg by exact H.
  change 0%Z with (Qfloor 0). apply Qfloor_resp_le. exact H.
Qed.

Lemma gaussian_filter1d_const (exp : Q -> Q) (input : list Q) (c sigma : Q) :
  (forall x, 0 < exp x) -> 0 <= sigma -> Forall (fun x => x == c) input ->
  length (gaussian_filter1d exp input sigma) = length input /\
  Forall (fun x => x == c) (gaussian_filter1d exp input sigma).
Proof.
  intros Hexp Hs Hc. unfold gaussian_filter1d, correlate1d. cbv zeta. split.
  - rewrite length_map, zrange_length. lia.
  - apply Forall_forall. intros y Hy. apply in_map_iff in Hy. destruct Hy as [i [<- Hi]].
    assert (Hn : (0 < length (zrange 0 (Z.of_nat (length input))))%nat)
      by (destruct (zrange 0 (Z.of_nat (length input))); [contradiction | cbn; lia]).
    rewrite zrange_length in Hn.
    rewrite (correlate_at_const _ c) by (try lia; try exact Hc).
    rewrite Qsum_rev, kernel_sum; [ring | exact Hexp |].
    apply py_int_nonneg_floor. lra.
Qed.

Lemma Qsum_const (l : list Q) (c : Q) :
  Forall (fun x => x == c) l -> Qsum l == inject_Z (Z.of_nat (length l)) * c.
Proof.
  induction 1 as [|x l Hx Hl IH].
  - unfold Qsum. cbn. ring.
  - unfold Qsum in *. cbn [fold_right length]. rewrite Hx, IH. rewrite (inject_nat_succ (length l)). ring.
Qed.

Lemma np_mean_const (l : list Q) (c : Q) :
  l <> [] -> Forall (fun x => x == c) l -> np_mean l == c.
Proof.
  intros Hne Hc. unfold np_mean. rewrite (Qsum_const l c Hc).
  assert (Hl : 0 < inject_Z (Z.of_nat (length l))).
  { destruct l as [|x r]; [congruence|]. cbn [length]. rewrite inject_nat_succ.
    pose proof (inject_nat_nonneg (length r)). lra. }
  field. intros E. rewrite E in Hl. discriminate.
Qed.

Lemma np_mean_firstn_const (l : list Q) (c : Q) (k : nat) :
  Forall (fun x => x == c) l -> (0 < k)%nat -> (k <= length l)%nat ->
  np_mean (firstn k l) == c.
Proof.
  intros Hc Hk Hl. apply np_mean_const.
  - intros E. apply (f_equal (@length Q)) in E. rewrite length_firstn in E. cbn in E. lia.
  - apply Forall_forall. intros x Hx. apply (proj1 (Forall_forall _ l) Hc).
    rewrite <- (firstn_skipn k l). apply in_or_app. left. exact Hx.
Qed.

Lemma zone_of_compat (a a' m : Q) : a == a' -> zone_of a m = zone_of a' m.
Proof. intros E. unfold zone_of. destruct_decs; try reflexivity; exfalso; lra. Qed.

Lemma plan_zone_compat (a a' b b' m nf : Q) :
  a == a' -> b == b' ->
  fst (plan_zone a b m nf) == fst (plan_zone a' b' m nf) /\
  snd (plan_zone a b m nf) == snd (plan_zone a' b' m nf).
Proof.
  intros Ea Eb. unfold plan_zone. rewrite (zone_of_compat a a' m Ea).
  destruct (zone_of a' m); cbv zeta.
  - split; [exact Eb | reflexivity].
  - destruct (Qlt_le_dec nf (95 # 100)); cbn [fst snd]; (try rewrite Ea); rewrite Eb; split; reflexivity.
  - cbn [fst snd]. rewrite Eb. split; reflexivity.
Qed.

Lemma speed_at_compat (rt rt' cs cs' msu msd s s' : Q) :
  rt == rt' -> cs == cs' -> s == s' ->
  speed_at rt cs msu msd s == speed_at rt' cs' msu msd s'.
Proof.
  intros Er Ec Es. unfold speed_at. cbv zeta.
  assert (E : s / rt == s' / rt') by (rewrite Er, Es; reflexivity).
  destruct (Qlt_le_dec (s / rt) 1), (Qlt_le_dec (s' / rt') 1); try (exfalso; lra).
  - rewrite Er, Ec, Es. reflexivity.
  - destruct (Qlt_le_dec 1 (s / rt)), (Qlt_le_dec 1 (s' / rt')); try (exfalso; lra).
    + rewrite Er, Ec, Es. reflexivity.
    + reflexivity.
Qed.

Lemma plan_smoothed_const (n : nat) (sr ss : list Q) (fps msu msd nf cr csub : Q) :
  length sr = n -> length ss = n ->
  Forall (fun x => x == cr) sr -> Forall (fun x => x == csub) ss ->
  ~ fps == 0 -> (0 < Z.to_nat (ref_frames_of fps n))%nat ->
  (Z.to_nat (ref_frames_of fps n) <= n)%nat ->
  (1 # 1000) <= fst (plan_zone cr csub (min_acceptable fps) nf) ->
  exists br rt sp,
    plan_smoothed n sr ss fps msu msd nf = Some (Clamped br rt ss sp) /\
    br == cr /\ rt == fst (plan_zone cr csub (min_acceptable fps) nf) /\
    length sp = n /\
    Forall (fun v => v == speed_at (fst (plan_zone cr csub (min_acceptable fps) nf))
                                   (snd (plan_zone cr csub (min_acceptable fps) nf)) msu msd csub) sp.
Proof.
  intros Hlr Hls Hr Hs Hfps Hk0 Hkn Href. unfold plan_smoothed.
  set (k := Z.to_nat (ref_frames_of fps n)) in *.
  destruct (Qeq_bool fps 0) eqn:E0; [apply Qeq_bool_iff in E0; contradiction|].
  assert (Hbr : np_mean (firstn k sr) == cr) by (apply np_mean_firstn_const; lia || assumption).
  assert (Hbs : np_mean (firstn k ss) == csub) by (apply np_mean_firstn_const; lia || assumption).
  destruct (plan_zone_compat _ _ _ _ (min_acceptable fps) nf Hbr Hbs) as [H1 H2].
  destruct (plan_zone (np_mean (firstn k sr)) (np_mean (firstn k ss)) (min_acceptable fps) nf)
    as [rt cs] eqn:Ez.
  cbn [fst snd] in H1, H2.
  destruct (Qlt_le_dec rt (1 # 1000)); [exfalso; lra|].
  destruct (Nat.ltb_spec (length ss) n); [lia|].
  eexists _, _, _. split; [reflexivity|].
  split; [exact Hbr|]. split; [exact H1|].
  rewrite firstn_all2 by lia. split; [rewrite length_map; exact Hls|].
  apply Forall_map. apply (Forall_impl _ (fun x Hx => speed_at_compat _ _ _ _ msu msd _ _ H1 H2 Hx)).
  exact Hs.
Qed.

Lemma Forall_repeat_eq (c : Q) (n : nat) : Forall (fun x => x == c) (repeat c n).
Proof.
  apply Forall_forall. intros x Hx. apply repeat_spec in Hx. subst. reflexivity.
Qed.

Lemma speed_curve_stage_const (exp : Q -> Q) (n : nat) (cr csub fps smoothing msu msd nf : Q) :
  (forall x, 0 < exp x) -> 0 <= smoothing -> (10 <= n)%nat -> ~ fps == 0 ->
  (1 # 1000) <= fst (plan_zone cr csub (min_acceptable fps) nf) ->
  exists br rt ss sp,
    speed_curve_stage exp (repeat cr n) (repeat csub n) fps smoothing msu msd nf
      = Some (Clamped br rt ss sp) /\
    br == cr /\ rt == fst (plan_zone cr csub (min_acceptable fps) nf) /\
    length ss = n /\ Forall (fun x => x == csub) ss /\ length sp = n /\
    Forall (fun v => v == speed_at (fst (plan_zone cr csub (min_acceptable fps) nf))
                                   (snd (plan_zone cr csub (min_acceptable fps) nf)) msu msd csub) sp.
Proof.
  intros Hexp Hs Hn Hfps Href. unfold speed_curve_stage. rewrite repeat_length.
  destruct (Nat.ltb_spec n 10); [lia|].
  destruct (gaussian_filter1d_const exp (repeat cr n) cr smoothing Hexp Hs (Forall_repeat_eq cr n))
    as [Hlr Hr].
  destruct (gaussian_filter1d_const exp (repeat csub n) csub smoothing Hexp Hs (Forall_repeat_eq csub n))
    as [Hls Hsub].
  rewrite repeat_length in Hlr, Hls.
  pose proof (ref_frames_bounds fps n Hn) as Hb.
  assert (Hk0 : (0 < Z.to_nat (ref_frames_of fps n))%nat) by lia.
  assert (Hkn : (Z.to_nat (ref_frames_of fps n) <= n)%nat).
  { pose proof (Z.div_le_upper_bound (Z.of_nat n) 4 (Z.of_nat n)). lia. }
  destruct (plan_smoothed_const n _ _ fps msu msd nf cr csub Hlr Hls Hr Hsub Hfps
              Hk0 Hkn Href) as (br & rt & sp & E & Hbr & Hrt & Hl & Hsp).
  exists br, rt, (gaussian_filter1d exp (repeat csub n) smoothing), sp. auto 7.
Qed.

Lemma ramp_length (fps : Q) (speed : list Q) : length (ramp fps speed) = length speed.
Proof. unfold ramp. rewrite length_map, length_combine, length_seq. lia. Qed.

Lemma ramp_after (fps : Q) (speed : list Q) (i : nat) :
  (Z.min (py_int fps) (Z.of_nat (length speed) / 5) <= Z.of_nat i)%Z -> (i < length speed)%nat ->
  nth i (ramp fps speed) 0 = nth i speed 0.
Proof.
  intros Hr Hi. unfold ramp.
  set (f := fun '(i0, v) => if (Z.of_nat i0 <? Z.min (py_int fps) (Z.of_nat (length speed) / 5))%Z
                            then 1 + (v - 1) * (inject_Z (Z.of_nat i0) / inject_Z (Z.min (py_int fps) (Z.of_nat (length speed) / 5)))
                                     * (inject_Z (Z.of_nat i0) / inject_Z (Z.min (py_int fps) (Z.of_nat (length speed) / 5)))
                            else v).
  change (nth i (map f (combine (seq 0 (length speed)) speed)) 0 = nth i speed 0).
  rewrite (nth_indep _ 0 (f (0%nat, 0))) by (rewrite length_map, length_combine, length_seq; lia).
  rewrite map_nth, combine_nth by (rewrite length_seq; reflexivity).
  rewrite seq_nth by exact Hi. unfold f. cbn [Nat.add].
  destruct (Z.ltb_spec (Z.of_nat i) (Z.min (py_int fps) (Z.of_nat (length speed) / 5))); [lia|].
  reflexivity.
Qed.

Lemma Qsquare_nonneg (y : Q) : 0 <= y * y.
Proof.
  destruct (Qlt_le_dec y 0).
  - setoid_replace (y * y) with ((- y) * (- y)) by ring.
    apply Qmult_le_0_compat; lra.
  - apply Qmult_le_0_compat; lra.
Qed.

Lemma exp_pade_pos (x : Q) : 0 < exp_pade x.
Proof.
  unfold exp_pade. apply Qinv_lt_0_compat.
  pose proof (Qsquare_nonneg (x - 1)).
  setoid_replace (1 - x + x * x / 2) with ((1 # 2) * ((x - 1) * (x - 1)) + (1 # 2)) by field.
  lra.
Qed.

Lemma Qsum_nonneg (l : list Q) : Forall (fun x => 0 <= x) l -> 0 <= Qsum l.
Proof.
  unfold Qsum. induction 1 as [|x l Hx Hl IH]; cbn [fold_right]; lra.
Qed.

Lemma nth_nonneg (l : list Q) (i : nat) : Forall (fun x => 0 <= x) l -> 0 <= nth i l 0.
Proof.
  intros H. revert i. induction H as [|x l Hx Hl IH]; intros [|i]; cbn; auto; lra.
Qed.

Lemma correlate_at_nonneg (input : list Q) (n pos : Z) (ws : list Q) :
  Forall (fun x => 0 <= x) input -> Forall (fun w => 0 <= w) ws ->
  0 <= correlate_at input n pos ws.
Proof.
  intros Hi Hw. revert pos. induction Hw as [|w ws Hw0 Hws IH]; intros pos; cbn [correlate_at].
  - lra.
  - pose proof (IH (pos + 1)%Z).
    pose proof (Qmult_le_0_compat _ _ Hw0 (nth_nonneg input (Z.to_nat (reflect_index n pos)) Hi)).
    lra.
Qed.

Lemma gaussian_kernel1d_nonneg (exp : Q -> Q) (sigma : Q) (r : Z) :
  (forall x, 0 <= exp x) -> Forall (fun w => 0 <= w) (gaussian_kernel1d exp sigma r).
Proof.
  intros Hexp. unfold gaussian_kernel1d. cbv zeta.
  set (phi := map _ (zrange (- r) (r + 1))).
  assert (Hphi : Forall (fun p => 0 <= p) phi).
  { apply Forall_forall. intros x Hx. unfold phi in Hx.
    apply in_map_iff in Hx. destruct Hx as [z [<- _]]. apply Hexp. }
  pose proof (Qinv_le_0_compat _ (Qsum_nonneg phi Hphi)) as Hinv.
  apply Forall_map. apply (Forall_impl _ (fun p Hp => Qmult_le_0_compat _ _ Hp Hinv)). exact Hphi.
Qed.

Lemma gaussian_filter1d_nonneg (exp : Q -> Q) (input : list Q) (sigma : Q) :
  (forall x, 0 <= exp x) -> Forall (fun x => 0 <= x) input ->
  Forall (fun x => 0 <= x) (gaussian_filter1d exp input sigma).
Proof.
  intros Hexp Hi. unfold gaussian_filter1d, correlate1d. cbv zeta.
  apply Forall_map. apply Forall_forall. intros i _. apply correlate_at_nonneg; [exact Hi|].
  apply Forall_rev. apply gaussian_kernel1d_nonneg. exact Hexp.
Qed.

Lemma min_acceptable_bounds (fps : Q) : 0 < fps <= 120 -> (3 # 10) <= min_acceptable fps.
Proof.
  intros [H0 H1]. unfold min_acceptable, MIN_TEMPO_24FPS, REFERENCE_FPS.
  assert ((1 # 5) <= 24 / fps) by (apply Qle_shift_div_l; lra). lra.
Qed.

(** The correction strength chosen by each zone is small enough, next to
    the reference tempo, for the up-branch of the loop to stay above
    0.65. *)
Lemma plan_zone_strength (br bs fps nf rt cs : Q) :
  0 < fps <= 120 -> plan_zone br bs (min_acceptable fps) nf = (rt, cs) -> (1 # 1000) <= rt ->
  0 <= cs /\ cs * (1 # 1000) <= (7 # 20) * (rt + (1 # 1000)).
Proof.
  intros Hfps Hz Hrt. pose proof (min_acceptable_bounds fps Hfps) as Hm.
  set (m := min_acceptable fps) in *. clearbody m.
  unfold plan_zone in Hz. destruct (zone_of br m) eqn:Ezone.
  - injection Hz as <- <-. lra.
  - unfold zone_of in Ezone.
    destruct (Qlt_le_dec br m) as [Hlt|]; [|discriminate].
    cbv zeta in Hz. destruct (Qlt_le_dec nf (95 # 100)).
    + injection Hz as _ <-.
      assert (Hp : br / m < 1) by (apply Qlt_shift_div_r; lra).
      setoid_replace ((4 # 10) / (15 # 100)) with (8 # 3) by reflexivity.
      split.
      * apply Q.min_glb; [|lra].
        assert (0 <= (1 - br / m) * (8 # 3)) by (apply Qmult_le_0_compat; lra). lra.
      * pose proof (Q.le_min_r ((3 # 10) + (1 - br / m) * (8 # 3)) (7 # 10)). lra.
    + injection Hz as _ <-. lra.
  - injection Hz as <- <-.
    pose proof (Q.le_max_r (bs * (22 # 10)) (m * (12 # 10))). lra.
Qed.

Lemma speed_at_bounds (rt cs msu msd s : Q) :
  (1 # 1000) <= rt -> 0 <= s -> 0 <= cs -> cs * (1 # 1000) <= (7 # 20) * (rt + (1 # 1000)) ->
  msd <= 13 # 20 -> 1 <= msu ->
  msd <= speed_at rt cs msu msd s <= msu.
Proof.
  intros Hrt Hs Hc Hcr Hd Hu. unfold speed_at. cbv zeta.
  set (D := s + (1 # 1000)).
  assert (HDs : D == s + (1 # 1000)) by reflexivity.
  assert (HD : 0 < D) by lra.
  set (y := rt / D).
  assert (Hy : y * D == rt) by (unfold y; field; lra).
  assert (Hy0 : 0 <= y) by (unfold y; apply Qle_shift_div_l; lra).
  assert (Hsr : s == s / rt * rt) by (field; lra).
  clearbody y D.
  destruct (Qlt_le_dec (s / rt) 1) as [Hlt|Hge].
  - assert (Hs' : s < rt).
    { assert (0 < (1 - s / rt) * rt) by (apply Qmult_lt_0_compat; lra). lra. }
    assert (HR : 0 < rt + (1 # 1000)) by lra.
    assert (A1 : 0 <= y * ((rt + (1 # 1000)) - D)) by (apply Qmult_le_0_compat; lra).
    assert (A2 : (y - 1) * cs >= - (7 # 20)) by nra.
    split.
    + apply Q.min_glb; lra.
    + apply Q.le_min_r.
  - destruct (Qlt_le_dec 1 (s / rt)) as [Hgt|Hle].
    + assert (Hs' : rt < s).
      { assert (0 < (s / rt - 1) * rt) by (apply Qmult_lt_0_compat; lra). lra. }
      assert (Hy1 : y < 1).
      { destruct (Qlt_le_dec y 1) as [|Hy1]; [assumption|exfalso].
        assert (0 <= (y - 1) * D) by (apply Qmult_le_0_compat; lra). lra. }
      assert ((y - 1) * cs <= 0).
      { assert (0 <= (1 - y) * cs) by (apply Qmult_le_0_compat; lra). lra. }
      split.
      * apply Q.le_max_r.
      * apply Q.max_lub; lra.
    + lra.
Qed.

(** The correction strength of every zone, for a positive fps. *)
Lemma plan_zone_strength_bounds (br bs fps nf : Q) :
  0 < fps -> (3 # 10) <= snd (plan_zone br bs (min_acceptable fps) nf) <= 95 # 100.
Proof.
  intros Hf.
  assert (Hm : 0 < min_acceptable fps).
  { unfold min_acceptable, MIN_TEMPO_24FPS, REFERENCE_FPS.
    apply Qmult_lt_0_compat; [reflexivity|]. apply Qlt_shift_div_l; lra. }
  set (m := min_acceptable fps) in *. clearbody m.
  unfold plan_zone. destruct (zone_of br m) eqn:Ezone; cbn [snd].
  - split; discriminate.
  - unfold zone_of in Ezone.
    destruct (Qlt_le_dec br m) as [Hlt|]; [|discriminate].
    cbv zeta. destruct (Qlt_le_dec nf (95 # 100)); cbn [snd]; [|split; discriminate].
    assert (Hp : br / m < 1) by (apply Qlt_shift_div_r; lra).
    setoid_replace ((4 # 10) / (15 # 100)) with (8 # 3) by reflexivity.
    assert (0 <= (1 - br / m) * (8 # 3)) by (apply Qmult_le_0_compat; lra).
    split.
    + apply Q.min_glb; lra.
    + pose proof (Q.le_min_r ((3 # 10) + (1 - br / m) * (8 # 3)) (7 # 10)). lra.
  - split; discriminate.
Qed.

Lemma speed_at_window_below_one (rt cs msu msd s : Q) :
  0 < cs -> 0 <= s -> rt - (1 # 1000) < s < rt ->
  speed_at rt cs msu msd s < 1.
Proof.
  intros Hc Hs Hr. unfold speed_at. cbv zeta.
  assert (Hrt : 0 < rt) by lra.
  destruct (Qlt_le_dec (s / rt) 1) as [_|Hge].
  - assert (Hy : rt / (s + (1 # 1000)) < 1) by (apply Qlt_shift_div_r; lra).
    assert (0 < (1 - rt / (s + (1 # 1000))) * cs) by (apply Qmult_lt_0_compat; lra).
    eapply Qle_lt_trans; [apply Q.le_min_l|]. lra.
  - exfalso. assert (s / rt < 1) by (apply Qlt_shift_div_r; lra). lra.
Qed.

(** Outside the window [(rt - 0.001, rt)], one iteration of the loop
    gives a multiplier in [[max_slowdown, max_speedup]] as soon as
    [max_slowdown <= 1 <= max_speedup]. *)
Lemma speed_at_outside_window (rt cs msu msd s : Q) :
  0 < rt -> 0 <= s -> 0 <= cs -> msd <= 1 -> 1 <= msu ->
  s + (1 # 1000) <= rt \/ rt <= s ->
  msd <= speed_at rt cs msu msd s <= msu.
Proof.
  intros Hrt Hs Hc Hd Hu Hw. unfold speed_at. cbv zeta.
  assert (HD : 0 < s + (1 # 1000)) by lra.
  destruct (Qlt_le_dec (s / rt) 1) as [Hlt|Hge].
  - assert (Hsr : s + (1 # 1000) <= rt).
    { destruct Hw as [Hw|Hw]; [exact Hw|exfalso].
      assert (1 <= s / rt) by (apply Qle_shift_div_l; lra). lra. }
    assert (Hy : 1 <= rt / (s + (1 # 1000))) by (apply Qle_shift_div_l; lra).
    assert (0 <= (rt / (s + (1 # 1000)) - 1) * cs) by (apply Qmult_le_0_compat; lra).
    split.
    + apply Q.min_glb; lra.
    + apply Q.le_min_r.
  - destruct (Qlt_le_dec 1 (s / rt)) as [Hgt|Hle].
    + assert (Hsr : rt < s).
      { destruct (Qlt_le_dec rt s) as [|Hle]; [assumption|exfalso].
        assert (s / rt <= 1) by (apply Qle_shift_div_r; lra). lra. }
      assert (Hy : rt / (s + (1 # 1000)) < 1) by (apply Qlt_shift_div_r; lra).
      assert (0 <= (1 - rt / (s + (1 # 1000))) * cs) by (apply Qmult_le_0_compat; lra).
      split.
      * apply Q.le_max_r.
      * apply Q.max_lub; lra.
    + lra.
Qed.

Lemma Forall2_map_r {B : Type} (P : B -> Q -> Prop) (f : B -> Q) (l : list B) :
  (forall x, In x l -> P x (f x)) -> Forall2 P l (map f l).
Proof.
  induction l as [|x l IH]; intros H; cbn [map]; constructor.
  - apply H. left. reflexivity.
  - apply IH. intros y Hy. apply H. right. exact Hy.
Qed.

(** Before the final smoothing: with non-negative subject motion (as
    [compute_motion] produces), a non-negative [exp], [0 < fps <= 120]
    (the range [process_video] enforces), [max_slowdown <= 0.65] and
    [max_speedup >= 1] (the defaults 0.6 and 2.0 qualify), every
    multiplier of the clamping loop lies in [[max_slowdown, max_speedup]]. *)
Theorem clamped_speeds_within_bounds (exp : Q -> Q) (raw subj : list Q)
    (fps smoothing msu msd nf br rt : Q) (ss sp : list Q) :
  (forall x, 0 <= exp x) -> Forall (fun x => 0 <= x) subj ->
  0 < fps <= 120 -> msd <= 13 # 20 -> 1 <= msu ->
  speed_curve_stage exp raw subj fps smoothing msu msd nf = Some (Clamped br rt ss sp) ->
  Forall (fun v => msd <= v <= msu) sp.
Proof.
  intros Hexp Hsubj Hfps Hd Hu E. unfold speed_curve_stage in E.
  destruct (length raw <? 10)%nat; [discriminate|].
  pose proof (gaussian_filter1d_nonneg exp subj smoothing Hexp Hsubj) as Hss.
  unfold plan_smoothed in E.
  destruct (Qeq_bool fps 0); [discriminate|].
  match type of E with
  | context [plan_zone ?a ?b ?m ?nf'] => destruct (plan_zone a b m nf') as [rt0 cs0] eqn:Ez
  end.
  destruct (Qlt_le_dec rt0 (1 # 1000)) as [|Hrt]; [discriminate|].
  destruct (_ <? _)%nat; [discriminate|].
  injection E as _ _ _ <-.
  destruct (plan_zone_strength _ _ fps nf rt0 cs0 Hfps Ez Hrt) as [Hc Hcr].
  apply Forall_map. apply Forall_forall. intros s Hs.
  apply speed_at_bounds; try assumption.
  apply (proj1 (Forall_forall _ _) Hss). rewrite <- (firstn_skipn (length raw)).
  apply in_or_app. left. exact Hs.
Qed.

Lemma clamped_speeds_within_bounds_witness :
  (forall x, 0 <= exp_pade x) /\ Forall (fun x => 0 <= x) [0; 1 # 2; 1; 3 # 2; 2; 5 # 2; 3; 1; 0; 2; 1; 4] /\
  0 < 24 <= 120 /\ 6 # 10 <= 13 # 20 /\ 1 <= 2 /\
  match speed_curve_stage exp_pade (repeat 1 12) [0; 1 # 2; 1; 3 # 2; 2; 5 # 2; 3; 1; 0; 2; 1; 4] 24 (1 # 2) 2 (6 # 10) 1 with
  | Some (Clamped _ _ _ sp) => Forall (fun v => 6 # 10 <= v <= 2) sp
  | _ => False
  end.
Proof.
  assert (Hexp : forall x, 0 <= exp_pade x) by (intros x; apply Qlt_le_weak, exp_pade_pos).
  assert (Hsubj : Forall (fun x => 0 <= x) [0; 1 # 2; 1; 3 # 2; 2; 5 # 2; 3; 1; 0; 2; 1; 4])
    by (repeat constructor; vm_compute; discriminate).
  split; [exact Hexp|]. split; [exact Hsubj|].
  split; [split; vm_compute; [reflexivity | discriminate]|]. split; [vm_compute; discriminate|].
  split; [vm_compute; discriminate|].
  remember (speed_curve_stage exp_pade (repeat 1 12) [0; 1 # 2; 1; 3 # 2; 2; 5 # 2; 3; 1; 0; 2; 1; 4] 24 (1 # 2) 2 (6 # 10) 1) as st eqn:E.
  destruct st as [[br rt sm sp|br rt ss sp]|].
  - vm_compute in E. discriminate.
  - apply (clamped_speeds_within_bounds exp_pade (repeat 1 12) [0; 1 # 2; 1; 3 # 2; 2; 5 # 2; 3; 1; 0; 2; 1; 4] 24 (1 # 2) 2 (6 # 10) 1 br rt ss sp);
      [exact Hexp | exact Hsubj | split; vm_compute; [reflexivity | discriminate] | vm_compute; discriminate
      | vm_compute; discriminate | symmetry; exact E].
  - vm_compute in E. discriminate.
Defined.

(** C1 (counterexample): the loop clamps samples below the reference
    tempo only from above, and the [+ 0.001] of line 206 turns that
    branch into a slowdown.  Constant motion 1.4 (raw) and 0.001 (subject)
    over 40 samples at 24 fps, with [max_slowdown = 0.9], lands in the
    borderline zone with reference tempo 0.00105, and every clamped
    multiplier is 0.8575, below [max_slowdown].  The helper
    [speed_curve_stage_const] gives the same for every positive [exp]. *)
Lemma clamp_one_sided_below_slowdown :
  exists br rt ss sp,
    speed_curve_stage exp_pade (repeat (14 # 10) 40) (repeat (1 # 1000) 40) 24 10 2 (9 # 10) 1
      = Some (Clamped br rt ss sp) /\
    br == 14 # 10 /\ rt == 21 # 20000 /\ length sp = 40%nat /\
    Forall (fun v => v == 343 # 400 /\ v < 9 # 10) sp.
Proof.
  destruct (speed_curve_stage_const exp_pade 40 (14 # 10) (1 # 1000) 24 10 2 (9 # 10) 1
              exp_pade_pos ltac:(vm_compute; discriminate) ltac:(lia)
              ltac:(vm_compute; discriminate) ltac:(vm_compute; discriminate))
    as (br & rt & ss & sp & E & Hbr & Hrt & _ & _ & Hl & Hsp).
  exists br, rt, ss, sp. split; [exact E|]. split; [exact Hbr|].
  split; [rewrite Hrt; vm_compute; reflexivity|]. split; [exact Hl|].
  refine (Forall_impl _ _ Hsp). intros v Hv.
  assert (Hv' : v == 343 # 400) by (rewrite Hv; vm_compute; reflexivity).
  split; [exact Hv' | rewrite Hv'; vm_compute; reflexivity].
Qed.

(** C1 (code bug): with non-negative subject motion, a non-negative
    [exp], a positive fps and [max_slowdown <= 1 <= max_speedup], every
    clamped multiplier lies in [[max_slowdown, max_speedup]] except for
    samples less than 0.001 below the reference tempo; those take the
    branch of lines 204-208 meant to speed up, which is clamped only from
    above, and the [+ 0.001] in its [speed_needed] makes their
    multiplier a slowdown below 1.0. *)
Theorem clamped_speeds_outside_offset_window (exp : Q -> Q) (raw subj : list Q)
    (fps smoothing msu msd nf br rt : Q) (ss sp : list Q) :
  (forall x, 0 <= exp x) -> Forall (fun x => 0 <= x) subj ->
  0 < fps -> msd <= 1 -> 1 <= msu ->
  speed_curve_stage exp raw subj fps smoothing msu msd nf = Some (Clamped br rt ss sp) ->
  Forall2 (fun s v =>
             (s + (1 # 1000) <= rt \/ rt <= s -> msd <= v <= msu) /\
             (rt < s + (1 # 1000) /\ s < rt -> v < 1))
          (firstn (length raw) ss) sp.
Proof.
  intros Hexp Hsubj Hfps Hd Hu E. unfold speed_curve_stage, plan_smoothed in E.
  destruct (length raw <? 10)%nat; [discriminate|].
  destruct (Qeq_bool fps 0); [discriminate|].
  match type of E with
  | context [plan_zone ?a ?b ?m ?nf'] => destruct (plan_zone a b m nf') as [rt0 cs0] eqn:Ez
  end.
  destruct (Qlt_le_dec rt0 (1 # 1000)) as [|Hrt]; [discriminate|].
  destruct (_ <? _)%nat; [discriminate|].
  injection E as _ <- <- <-.
  match type of Ez with
  | plan_zone ?a ?b _ _ = _ => pose proof (plan_zone_strength_bounds a b fps nf Hfps) as Hc
  end.
  rewrite Ez in Hc. cbn [snd] in Hc.
  apply Forall2_map_r. intros s Hs.
  assert (Hs0 : 0 <= s).
  { apply (proj1 (Forall_forall _ _) (gaussian_filter1d_nonneg exp subj smoothing Hexp Hsubj)).
    rewrite <- (firstn_skipn (length raw)). apply in_or_app. left. exact Hs. }
  split.
  - intros Hw. apply speed_at_outside_window; try assumption; lra.
  - intros Hw. apply speed_at_window_below_one; [lra | exact Hs0 | lra].
Qed.

Lemma clamped_speeds_outside_offset_window_witness :
  exists br rt ss sp,
    speed_curve_stage exp_pade (repeat (14 # 10) 40) (repeat (1 # 1000) 40) 24 10 2 (9 # 10) 1
      = Some (Clamped br rt ss sp) /\
    Forall2 (fun s v => (s + (1 # 1000) <= rt \/ rt <= s -> 9 # 10 <= v <= 2) /\
                        (rt < s + (1 # 1000) /\ s < rt -> v < 1))
            (firstn (length (repeat (14 # 10) 40)) ss) sp.
Proof.
  destruct (speed_curve_stage_const exp_pade 40 (14 # 10) (1 # 1000) 24 10 2 (9 # 10) 1
              exp_pade_pos ltac:(vm_compute; discriminate) ltac:(lia)
              ltac:(vm_compute; discriminate) ltac:(vm_compute; discriminate))
    as (br & rt & ss & sp & E & _).
  exists br, rt, ss, sp. split; [exact E|].
  apply (clamped_speeds_outside_offset_window exp_pade (repeat (14 # 10) 40) (repeat (1 # 1000) 40)
           24 10 2 (9 # 10) 1 br rt ss sp).
  - intros x. apply Qlt_le_weak, exp_pade_pos.
  - apply Forall_forall. intros x Hx. apply repeat_spec in Hx. subst x. vm_compute. discriminate.
  - reflexivity.
  - vm_compute. discriminate.
  - vm_compute. discriminate.
  - exact E.
Defined.

(** C6: Scenario B.  For any positive [exp], 100 samples of constant
    motion 0.5 at 24 fps fall in the slow zone (threshold 1.275), with
    reference tempo max(2.2 * 0.5, 1.2 * 1.5) = 1.8 and correction
    strength 0.95; every clamped multiplier is 2.0, and after the
    re-smoothing and the 20-sample ramp the speed is 2.0 from sample 20
    on. *)
Theorem scenario_B_slow_zone (exp : Q -> Q) (nf : Q) :
  (forall x, 0 < exp x) ->
  borderline_threshold (min_acceptable 24) == 1275 # 1000 /\
  zone_of (1 # 2) (min_acceptable 24) = Slow /\
  plan_zone (1 # 2) (1 # 2) (min_acceptable 24) nf
    = (Qmax ((1 # 2) * (22 # 10)) (min_acceptable 24 * (12 # 10)), 95 # 100) /\
  Qmax ((1 # 2) * (22 # 10)) (min_acceptable 24 * (12 # 10)) == 9 # 5 /\
  exists br rt ss clamped,
    speed_curve_stage exp (repeat (1 # 2) 100) (repeat (1 # 2) 100) 24 10 2 (6 # 10) nf
      = Some (Clamped br rt ss clamped) /\
    br == 1 # 2 /\ rt == 9 # 5 /\ Forall (fun v => v == 2) clamped /\
    exists speed,
      compute_speed_curve_smart exp (repeat (1 # 2) 100) (repeat (1 # 2) 100) 24 10 2 (6 # 10) nf
        = Some (br, rt, ss, speed) /\
      length speed = 100%nat /\
      forall i, (20 <= i < 100)%nat -> nth i speed 0 == 2.
Proof.
  intros Hexp.
  assert (Hz : plan_zone (1 # 2) (1 # 2) (min_acceptable 24) nf
               = (Qmax ((1 # 2) * (22 # 10)) (min_acceptable 24 * (12 # 10)), 95 # 100))
    by reflexivity.
  split; [vm_compute; reflexivity|]. split; [reflexivity|]. split; [exact Hz|].
  split; [vm_compute; reflexivity|].
  destruct (speed_curve_stage_const exp 100 (1 # 2) (1 # 2) 24 10 2 (6 # 10) nf Hexp
              ltac:(vm_compute; discriminate) ltac:(lia) ltac:(vm_compute; discriminate)
              ltac:(rewrite Hz; vm_compute; discriminate))
    as (br & rt & ss & cl & E & Hbr & Hrt & _ & _ & Hl & Hcl).
  rewrite Hz in Hrt, Hcl. cbn [fst snd] in Hrt, Hcl.
  assert (Hcl2 : Forall (fun v => v == 2) cl).
  { refine (Forall_impl _ _ Hcl). intros v Hv. rewrite Hv. vm_compute. reflexivity. }
  exists br, rt, ss, cl. split; [exact E|]. split; [exact Hbr|].
  split; [rewrite Hrt; vm_compute; reflexivity|]. split; [exact Hcl2|].
  exists (ramp 24 (gaussian_filter1d exp cl 10)).
  split; [unfold compute_speed_curve_smart; rewrite E; reflexivity|].
  destruct (gaussian_filter1d_const exp cl 2 10 Hexp ltac:(vm_compute; discriminate) Hcl2)
    as [Hgl Hg].
  split; [rewrite ramp_length, Hgl; exact Hl|].
  intros i Hi. rewrite ramp_after.
  - rewrite Forall_nth in Hg. apply Hg. lia.
  - rewrite Hgl, Hl.
    assert (E20 : Z.min (py_int 24) (Z.of_nat 100 / 5) = 20%Z) by (vm_compute; reflexivity).
    rewrite E20. lia.
  - lia.
Qed.

Lemma scenario_B_slow_zone_witness :
  (forall x, 0 < exp_pade x) /\
  borderline_threshold (min_acceptable 24) == 1275 # 1000 /\
  zone_of (1 # 2) (min_acceptable 24) = Slow /\
  plan_zone (1 # 2) (1 # 2) (min_acceptable 24) 1
    = (Qmax ((1 # 2) * (22 # 10)) (min_acceptable 24 * (12 # 10)), 95 # 100) /\
  Qmax ((1 # 2) * (22 # 10)) (min_acceptable 24 * (12 # 10)) == 9 # 5 /\
  exists br rt ss clamped,
    speed_curve_stage exp_pade (repeat (1 # 2) 100) (repeat (1 # 2) 100) 24 10 2 (6 # 10) 1
      = Some (Clamped br rt ss clamped) /\
    br == 1 # 2 /\ rt == 9 # 5 /\ Forall (fun v => v == 2) clamped /\
    exists speed,
      compute_speed_curve_smart exp_pade (repeat (1 # 2) 100) (repeat (1 # 2) 100) 24 10 2 (6 # 10) 1
        = Some (br, rt, ss, speed) /\
      length speed = 100%nat /\
      forall i, (20 <= i < 100)%nat -> nth i speed 0 == 2.
Proof.
  split; [exact exp_pade_pos|].
  apply (scenario_B_slow_zone exp_pade 1). exact exp_pade_pos.
Defined.

(** C9: the planner returns the all-1.0 curve, normally, when the series
    has fewer than 10 samples and when the reference tempo is below
    0.001; those are the only two places it does (every other normal
    return goes through the clamping loop with a reference tempo of at
    least 0.001).  The code computes a reference tempo only when the
    smoothing of lines 144-145 succeeds, which takes [smoothing > 0]
    (scipy raises at [sigma = 0] or below), and that tempo is a number
    only for a non-empty subject series (the mean of an empty slice is
    nan, and [nan < 0.001] is false): the second guard is stated under
    those two conditions. *)
Theorem identity_curve_guards (exp : Q -> Q) (raw subj : list Q)
    (fps smoothing msu msd nf : Q) :
  ((length raw < 10)%nat ->
   compute_speed_curve_smart exp raw subj fps smoothing msu msd nf
     = Some (np_mean raw, np_mean raw, raw, repeat 1 (length raw))) /\
  (let n := length raw in
   let smoothed_raw := gaussian_filter1d exp raw smoothing in
   let smoothed_subject := gaussian_filter1d exp subj smoothing in
   let k := Z.to_nat (ref_frames_of fps n) in
   let beginning_raw := np_mean (firstn k smoothed_raw) in
   let reference_tempo :=
     fst (plan_zone beginning_raw (np_mean (firstn k smoothed_subject)) (min_acceptable fps) nf) in
   (10 <= n)%nat -> ~ fps == 0 -> 0 < smoothing -> subj <> [] ->
   reference_tempo < 1 # 1000 ->
   compute_speed_curve_smart exp raw subj fps smoothing msu msd nf
     = Some (beginning_raw, reference_tempo, smoothed_subject, repeat 1 n)) /\
  (forall br rt sm sp,
   speed_curve_stage exp raw subj fps smoothing msu msd nf = Some (Early br rt sm sp) ->
   sp = repeat 1 (length raw) /\ ((length raw < 10)%nat \/ rt < 1 # 1000)) /\
  (forall br rt ss sp,
   speed_curve_stage exp raw subj fps smoothing msu msd nf = Some (Clamped br rt ss sp) ->
   (10 <= length raw)%nat /\ 1 # 1000 <= rt).
Proof.
  unfold compute_speed_curve_smart, speed_curve_stage. cbv zeta.
  destruct (Nat.ltb_spec (length raw) 10) as [Hn|Hn].
  - split; [reflexivity|]. split; [intros; lia|].
    split; [|discriminate]. intros br rt sm sp E. injection E as _ _ _ <-. auto.
  - split; [lia|]. unfold plan_smoothed.
    destruct (Qeq_bool fps 0) eqn:E0.
    + split; [intros _ H; apply Qeq_bool_iff in E0; contradiction|].
      split; discriminate.
    + match goal with
      | |- context [plan_zone ?a ?b ?m ?nf'] => destruct (plan_zone a b m nf') as [rt0 cs0] eqn:Ez
      end.
      cbn [fst].
      destruct (Qlt_le_dec rt0 (1 # 1000)) as [Hlt|Hge].
      * split; [reflexivity|]. split; [|discriminate].
        intros br rt sm sp E. injection E as _ <- _ <-. auto.
      * split; [intros _ _ _ _ H; exfalso; lra|].
        destruct (length (gaussian_filter1d exp subj smoothing) <? length raw)%nat.
        -- split; discriminate.
        -- split; [discriminate|]. intros br rt ss sp E. injection E as _ <- _ _. auto.
Qed.

Lemma identity_curve_guards_witness :
  (length [1; 2; 3] < 10)%nat /\
  compute_speed_curve_smart exp_pade [1; 2; 3] [1; 2; 3] 24 10 2 (6 # 10) 1
    = Some (np_mean [1; 2; 3], np_mean [1; 2; 3], [1; 2; 3], repeat 1 3) /\
  (10 <= length (repeat 2 12))%nat /\ ~ 24 == 0 /\ 0 < 1 # 2 /\ repeat 0 12 <> [] /\
  fst (plan_zone (np_mean (firstn (Z.to_nat (ref_frames_of 24 12))
                                  (gaussian_filter1d exp_pade (repeat 2 12) (1 # 2))))
                 (np_mean (firstn (Z.to_nat (ref_frames_of 24 12))
                                  (gaussian_filter1d exp_pade (repeat 0 12) (1 # 2))))
                 (min_acceptable 24) 1) < 1 # 1000 /\
  compute_speed_curve_smart exp_pade (repeat 2 12) (repeat 0 12) 24 (1 # 2) 2 (6 # 10) 1
    = Some (np_mean (firstn (Z.to_nat (ref_frames_of 24 12))
                            (gaussian_filter1d exp_pade (repeat 2 12) (1 # 2))),
            fst (plan_zone (np_mean (firstn (Z.to_nat (ref_frames_of 24 12))
                                            (gaussian_filter1d exp_pade (repeat 2 12) (1 # 2))))
                           (np_mean (firstn (Z.to_nat (ref_frames_of 24 12))
                                            (gaussian_filter1d exp_pade (repeat 0 12) (1 # 2))))
                           (min_acceptable 24) 1),
            gaussian_filter1d exp_pade (repeat 0 12) (1 # 2), repeat 1 12).
Proof.
  destruct (identity_curve_guards exp_pade [1; 2; 3] [1; 2; 3] 24 10 2 (6 # 10) 1) as [H1 _].
  destruct (identity_curve_guards exp_pade (repeat 2 12) (repeat 0 12) 24 (1 # 2) 2 (6 # 10) 1)
    as [_ [H2 _]].
  cbv zeta in H2. rewrite repeat_length in H2.
  assert (Href : fst (plan_zone (np_mean (firstn (Z.to_nat (ref_frames_of 24 12))
                                  (gaussian_filter1d exp_pade (repeat 2 12) (1 # 2))))
                 (np_mean (firstn (Z.to_nat (ref_frames_of 24 12))
                                  (gaussian_filter1d exp_pade (repeat 0 12) (1 # 2))))
                 (min_acceptable 24) 1) < 1 # 1000) by (vm_compute; reflexivity).
  split; [cbn; lia|]. split; [apply H1; cbn; lia|].
  split; [rewrite repeat_length; lia|]. split; [vm_compute; discriminate|].
  split; [reflexivity|]. split; [cbn; discriminate|].
  split; [exact Href|].
  apply H2; [lia | vm_compute; discriminate | reflexivity | cbn; discriminate | exact Href].
Defined.

(** * Further properties of the code *)

(** ** Smoothing, ramp and planner *)

Lemma gaussian_filter1d_length (exp : Q -> Q) (input : list Q) (sigma : Q) :
  length (gaussian_filter1d exp input sigma) = length input.
Proof.
  unfold gaussian_filter1d, correlate1d. rewrite length_map, zrange_length. lia.
Qed.

Lemma correlate_at_bounds (input : list Q) (n pos : Z) (ws : list Q) (a b : Q) :
  n = Z.of_nat (length input) -> (0 < n)%Z ->
  Forall (fun x => a <= x <= b) input -> Forall (fun w => 0 <= w) ws ->
  a * Qsum ws <= correlate_at input n pos ws <= b * Qsum ws.
Proof.
  intros Hn Hpos Hi Hw. revert pos. induction Hw as [|w ws Hw0 Hws IH]; intros pos;
    cbn [correlate_at Qsum fold_right].
  - unfold Qsum. cbn. lra.
  - specialize (IH (pos + 1)%Z). fold (Qsum ws).
    set (x := nth (Z.to_nat (reflect_index n pos)) input 0).
    assert (Hx : a <= x <= b).
    { apply (proj1 (Forall_forall _ _) Hi). apply nth_In.
      pose proof (reflect_index_range n pos Hpos). lia. }
    assert (0 <= w * (x - a)) by (apply Qmult_le_0_compat; lra).
    assert (0 <= w * (b - x)) by (apply Qmult_le_0_compat; lra).
    split; nra.
Qed.

Lemma gaussian_filter1d_bounds (exp : Q -> Q) (input : list Q) (sigma a b : Q) :
  (forall x, 0 < exp x) -> 0 < sigma -> Forall (fun x => a <= x <= b) input ->
  Forall (fun x => a <= x <= b) (gaussian_filter1d exp input sigma).
Proof.
  intros Hexp Hs Hi. unfold gaussian_filter1d, correlate1d. cbv zeta.
  apply Forall_map. apply Forall_forall. intros i Hin.
  unfold zrange in Hin. apply in_map_iff in Hin. destruct Hin as [k [_ Hk]].
  apply in_seq in Hk.
  set (r := py_int (4 * sigma + (1 # 2))).
  assert (Hr : (0 <= r)%Z) by (apply py_int_nonneg_floor; lra).
  pose proof (kernel_sum exp sigma r Hexp Hr) as HS.
  rewrite <- Qsum_rev in HS.
  pose proof (correlate_at_bounds input (Z.of_nat (length input)) (i - Z.of_nat (Nat.div (length (rev (gaussian_kernel1d exp sigma r))) 2))
                (rev (gaussian_kernel1d exp sigma r)) a b eq_refl ltac:(lia) Hi) as H.
  destruct H as [H1 H2].
  { apply Forall_rev. apply gaussian_kernel1d_nonneg. intros x. apply Qlt_le_weak, Hexp. }
  rewrite HS, Qmult_1_r in H1, H2. split; assumption.
Qed.

Lemma ramp_bounds (fps : Q) (speed : list Q) (a b : Q) :
  a <= 1 <= b -> Forall (fun x => a <= x <= b) speed ->
  Forall (fun x => a <= x <= b) (ramp fps speed).
Proof.
  intros Hab Hs. unfold ramp. apply Forall_map. apply Forall_forall.
  intros [i v] Hin.
  pose proof (in_combine_l _ _ _ _ Hin) as Hi. pose proof (in_combine_r _ _ _ _ Hin) as Hv.
  apply in_seq in Hi.
  assert (Hvb : a <= v <= b) by exact (proj1 (Forall_forall _ _) Hs v Hv).
  set (rf := Z.min (py_int fps) (Z.of_nat (length speed) / 5)).
  destruct (Z.ltb_spec (Z.of_nat i) rf) as [Hlt|]; [|exact Hvb].
  set (t := inject_Z (Z.of_nat i) / inject_Z rf).
  assert (Hrf : 0 < inject_Z rf) by (change 0 with (inject_Z 0); rewrite <- Zlt_Qlt; lia).
  assert (Ht0 : 0 <= t).
  { unfold t. apply Qle_shift_div_l; [exact Hrf|]. rewrite Qmult_0_l.
    change 0 with (inject_Z 0). rewrite <- Zle_Qle. lia. }
  assert (Ht1 : t <= 1).
  { unfold t. apply Qle_shift_div_r; [exact Hrf|]. rewrite Qmult_1_l.
    rewrite <- Zle_Qle. lia. }
  assert (Hu0 : 0 <= t * t) by (apply Qmult_le_0_compat; lra).
  assert (Hu1 : t * t <= 1).
  { assert (0 <= t * (1 - t)) by (apply Qmult_le_0_compat; lra). lra. }
  set (u := t * t) in *.
  setoid_replace (1 + (v - 1) * t * t) with (1 + (v - 1) * u) by (unfold u; ring).
  assert (0 <= u * (v - a)) by (apply Qmult_le_0_compat; lra).
  assert (0 <= u * (b - v)) by (apply Qmult_le_0_compat; lra).
  assert (0 <= (1 - u) * (1 - a)) by (apply Qmult_le_0_compat; lra).
  assert (0 <= (1 - u) * (b - 1)) by (apply Qmult_le_0_compat; lra).
  split; nra.
Qed.

Lemma ramp_head (fps v : Q) (rest : list Q) :
  (0 < Z.min (py_int fps) (Z.of_nat (length (v :: rest)) / 5))%Z ->
  nth 0 (ramp fps (v :: rest)) 0 == 1.
Proof.
  intros H. unfold ramp.
  set (rf := Z.min (py_int fps) (Z.of_nat (length (v :: rest)) / 5)) in *.
  cbn [length seq combine map nth].
  destruct (Z.ltb_spec (Z.of_nat 0) rf) as [_|]; [|lia].
  change (inject_Z (Z.of_nat 0)) with 0.
  setoid_replace (0 / inject_Z rf) with 0 by (unfold Qdiv; ring). ring.
Qed.

(** What [speed_curve_stage] returns, by stage. *)
Lemma stage_early_speed (exp : Q -> Q) (raw subj : list Q) (fps sm msu msd nf br rt : Q)
    (ss sp : list Q) :
  speed_curve_stage exp raw subj fps sm msu msd nf = Some (Early br rt ss sp) ->
  sp = repeat 1 (length raw).
Proof.
  unfold speed_curve_stage, plan_smoothed. destruct (length raw <? 10)%nat.
  - intros E. injection E as _ _ _ <-. reflexivity.
  - destruct (Qeq_bool fps 0); [discriminate|].
    match goal with
    | |- context [plan_zone ?a ?b ?m ?nf'] => destruct (plan_zone a b m nf') as [rt0 cs0]
    end.
    destruct (Qlt_le_dec rt0 (1 # 1000)).
    + intros E. injection E as _ _ _ <-. reflexivity.
    + destruct (_ <? _)%nat; discriminate.
Qed.

Lemma stage_clamped_length (exp : Q -> Q) (raw subj : list Q) (fps sm msu msd nf br rt : Q)
    (ss sp : list Q) :
  speed_curve_stage exp raw subj fps sm msu msd nf = Some (Clamped br rt ss sp) ->
  (10 <= length raw)%nat /\ length sp = length raw.
Proof.
  unfold speed_curve_stage, plan_smoothed.
  destruct (Nat.ltb_spec (length raw) 10); [discriminate|].
  destruct (Qeq_bool fps 0); [discriminate|].
  match goal with
  | |- context [plan_zone ?a ?b ?m ?nf'] => destruct (plan_zone a b m nf') as [rt0 cs0]
  end.
  destruct (Qlt_le_dec rt0 (1 # 1000)); [discriminate|].
  destruct (Nat.ltb_spec (length (gaussian_filter1d exp subj sm)) (length raw)); [discriminate|].
  intros E. injection E as _ _ _ <-. split; [lia|].
  rewrite length_map, length_firstn. lia.
Qed.

(** The bounds of the clamping loop (lines 200-214), on the stage. *)
Lemma stage_clamped_bounds (exp : Q -> Q) (raw subj : list Q)
    (fps smoothing msu msd nf br rt : Q) (ss sp : list Q) :
  (forall x, 0 <= exp x) -> Forall (fun x => 0 <= x) subj ->
  0 < fps <= 120 -> msd <= 13 # 20 -> 1 <= msu ->
  speed_curve_stage exp raw subj fps smoothing msu msd nf = Some (Clamped br rt ss sp) ->
  Forall (fun v => msd <= v <= msu) sp.
Proof.
  intros Hexp Hsubj Hfps Hd Hu E. unfold speed_curve_stage, plan_smoothed in E.
  destruct (length raw <? 10)%nat; [discriminate|].
  destruct (Qeq_bool fps 0); [discriminate|].
  match type of E with
  | context [plan_zone ?a ?b ?m ?nf'] => destruct (plan_zone a b m nf') as [rt0 cs0] eqn:Ez
  end.
  destruct (Qlt_le_dec rt0 (1 # 1000)) as [|Hrt]; [discriminate|].
  destruct (_ <? _)%nat; [discriminate|].
  injection E as _ _ _ <-.
  destruct (plan_zone_strength _ _ fps nf rt0 cs0 Hfps Ez Hrt) as [Hc Hcr].
  apply Forall_map. apply Forall_forall. intros s Hs.
  apply speed_at_bounds; try assumption.
  apply (proj1 (Forall_forall _ _) (gaussian_filter1d_nonneg exp subj smoothing Hexp Hsubj)).
  rewrite <- (firstn_skipn (length raw)). apply in_or_app. left. exact Hs.
Qed.

Lemma speed_curve_length (exp : Q -> Q) (raw subj : list Q)
    (fps smoothing msu msd nf br rt : Q) (sm speed : list Q) :
  compute_speed_curve_smart exp raw subj fps smoothing msu msd nf = Some (br, rt, sm, speed) ->
  length speed = length raw.
Proof.
  unfold compute_speed_curve_smart.
  destruct (speed_curve_stage exp raw subj fps smoothing msu msd nf) as [[b r s p|b r s p]|] eqn:E;
    intros H; try discriminate; injection H as _ _ _ <-.
  - rewrite (stage_early_speed _ _ _ _ _ _ _ _ _ _ _ _ E). apply repeat_length.
  - rewrite ramp_length, gaussian_filter1d_length.
    exact (proj2 (stage_clamped_length _ _ _ _ _ _ _ _ _ _ _ _ E)).
Qed.

(** [compute_speed_curve_smart] raises on a series of at least 10
    samples when [fps == 0] ([ZeroDivisionError] at line 155, if the
    smoothing has not raised before), and returns normally on a series of
    fewer than 10 samples, or when [fps <> 0], [smoothing > 0] (scipy's
    [gaussian_filter1d] raises otherwise) and the subject series is at
    least as long as the raw one. *)
Theorem compute_speed_curve_smart_raises (exp : Q -> Q) (raw subj : list Q)
    (fps smoothing msu msd nf : Q) :
  ((10 <= length raw)%nat -> fps == 0 ->
   compute_speed_curve_smart exp raw subj fps smoothing msu msd nf = None) /\
  ((length raw < 10)%nat \/ (~ fps == 0 /\ 0 < smoothing /\ (length raw <= length subj)%nat) ->
   exists r, compute_speed_curve_smart exp raw subj fps smoothing msu msd nf = Some r).
Proof.
  unfold compute_speed_curve_smart, speed_curve_stage, plan_smoothed.
  destruct (Nat.ltb_spec (length raw) 10) as [Hn|Hn].
  - split; [lia|]. intros _. eexists. reflexivity.
  - split.
    + intros _ H0. apply Qeq_bool_iff in H0. rewrite H0. reflexivity.
    + intros [Hlt|[H0 [_ Hl]]]; [lia|].
      destruct (Qeq_bool fps 0) eqn:E0; [apply Qeq_bool_iff in E0; contradiction|].
      match goal with
      | |- context [plan_zone ?a ?b ?m ?nf'] => destruct (plan_zone a b m nf') as [rt0 cs0]
      end.
      destruct (Qlt_le_dec rt0 (1 # 1000)); [eexists; reflexivity|].
      rewrite gaussian_filter1d_length.
      destruct (Nat.ltb_spec (length subj) (length raw)); [lia|]. eexists; reflexivity.
Qed.

Lemma speed_curve_within (exp : Q -> Q) (raw subj : list Q)
    (fps smoothing msu msd nf br rt : Q) (sm speed : list Q) :
  (forall x, 0 < exp x) -> 0 < smoothing -> Forall (fun x => 0 <= x) subj ->
  0 < fps <= 120 -> msd <= 13 # 20 -> 1 <= msu ->
  compute_speed_curve_smart exp raw subj fps smoothing msu msd nf = Some (br, rt, sm, speed) ->
  Forall (fun v => msd <= v <= msu) speed.
Proof.
  intros Hexp Hs Hsubj Hfps Hd Hu. unfold compute_speed_curve_smart.
  destruct (speed_curve_stage exp raw subj fps smoothing msu msd nf) as [[b r s p|b r s p]|] eqn:E;
    intros H; try discriminate; injection H as _ _ _ <-.
  - rewrite (stage_early_speed _ _ _ _ _ _ _ _ _ _ _ _ E).
    apply Forall_forall. intros x Hx. apply repeat_spec in Hx. subst x. lra.
  - apply ramp_bounds; [lra|]. apply gaussian_filter1d_bounds; try assumption.
    apply (stage_clamped_bounds exp raw subj fps smoothing msu msd nf b r s p); try assumption.
    intros x. apply Qlt_le_weak, Hexp.
Qed.

(** With [fps >= 1], the speed curve returned for a non-empty series
    starts at exactly [1.0]: either it is the all-ones curve of an early
    return, or the ramp of lines 219-223 blends sample 0 with weight 0. *)
Theorem compute_speed_curve_smart_starts_at_one (exp : Q -> Q) (raw subj : list Q)
    (fps smoothing msu msd nf br rt : Q) (sm speed : list Q) :
  1 <= fps -> (1 <= length raw)%nat ->
  compute_speed_curve_smart exp raw subj fps smoothing msu msd nf = Some (br, rt, sm, speed) ->
  nth 0 speed 0 == 1.
Proof.
  intros Hf Hn. unfold compute_speed_curve_smart.
  destruct (speed_curve_stage exp raw subj fps smoothing msu msd nf) as [[b r s p|b r s p]|] eqn:E;
    intros H; try discriminate; injection H as _ _ _ <-.
  - rewrite (stage_early_speed _ _ _ _ _ _ _ _ _ _ _ _ E).
    destruct (length raw); [lia|]. reflexivity.
  - destruct (stage_clamped_length _ _ _ _ _ _ _ _ _ _ _ _ E) as [H10 Hl].
    pose proof (gaussian_filter1d_length exp p smoothing) as Hg.
    destruct (gaussian_filter1d exp p smoothing) as [|v rest] eqn:Eg; [cbn in Hg; lia|].
    apply ramp_head.
    assert (Hp : (1 <= py_int fps)%Z).
    { rewrite py_int_nonneg by lra.
      apply Z.le_trans with (Qfloor 1); [reflexivity|]. apply Qfloor_resp_le. exact Hf. }
    assert (H5 : (2 <= Z.of_nat (length (v :: rest)) / 5)%Z).
    { rewrite Hg, Hl. apply Z.div_le_lower_bound; lia. }
    lia.
Qed.

(** For a positive fps, every zone of lines 165-192 picks a correction
    strength between 0.3 and 0.95. *)
Theorem plan_zone_strength_range (br bs fps nf : Q) :
  0 < fps -> (3 # 10) <= snd (plan_zone br bs (min_acceptable fps) nf) <= 95 # 100.
Proof. exact (plan_zone_strength_bounds br bs fps nf). Qed.

(** A sample less than 0.001 below the reference tempo gets a multiplier
    below 1.0 (a slowdown) from the branch meant to speed it up, because
    [speed_needed] divides by [smoothed_subject[i] + 0.001]. *)
Theorem speed_at_just_below_reference (rt cs msu msd s : Q) :
  0 < cs -> 0 <= s -> rt - (1 # 1000) < s < rt ->
  speed_at rt cs msu msd s < 1.
Proof. exact (speed_at_window_below_one rt cs msu msd s). Qed.

(** ** [compute_motion] *)

Lemma np_mean_nonneg (l : list Q) : Forall (fun x => 0 <= x) l -> 0 <= np_mean l.
Proof.
  intros H. unfold np_mean. destruct l as [|x r]; [discriminate|].
  apply Qle_shift_div_l.
  - change 0 with (inject_Z 0). rewrite <- Zlt_Qlt. cbn [length]. lia.
  - rewrite Qmult_0_l. apply Qsum_nonneg, H.
Qed.

Lemma magnitudes_nonneg (sqrt : Q -> Q) (flow : list (Q * Q)) :
  (forall x, 0 <= sqrt x) -> Forall (fun x => 0 <= x) (magnitudes sqrt flow).
Proof.
  intros Hs. unfold magnitudes. apply Forall_map. apply Forall_forall. intros [dx dy] _. apply Hs.
Qed.

Lemma compute_motion_fst {Frame Gray : Type} (cvt : Frame -> Gray)
    (flow : Gray -> Gray -> list (Q * Q)) (sqrt : Q -> Q) (frames : list Frame) (b : bool) :
  fst (compute_motion Frame Gray cvt flow sqrt frames b)
  = map (fun '(f1, f2) => snd (pair_motion Frame Gray cvt flow sqrt b f1 f2)) (frame_pairs Frame frames).
Proof.
  unfold compute_motion. cbn [fst]. rewrite map_map. apply map_ext.
  intros [f1 f2]. destruct (pair_motion Frame Gray cvt flow sqrt b f1 f2) as [[? ?] ?]. reflexivity.
Qed.

Lemma compute_motion_lists {Frame Gray : Type} (cvt : Frame -> Gray)
    (flow : Gray -> Gray -> list (Q * Q)) (sqrt : Q -> Q) (frames : list Frame) (b : bool) :
  snd (compute_motion Frame Gray cvt flow sqrt frames b)
  = noise_factor_of_ratio
      (noise_ratio
         (map (fun '(f1, f2) => np_mean (magnitudes sqrt (flow (cvt f1) (cvt f2)))) (frame_pairs Frame frames))
         (map (fun '(f1, f2) => np_median (magnitudes sqrt (flow (cvt f1) (cvt f2)))) (frame_pairs Frame frames))).
Proof.
  unfold compute_motion. cbn [snd]. rewrite !map_map. f_equal. f_equal; apply map_ext;
    intros [f1 f2]; unfold pair_motion; destruct b; reflexivity.
Qed.

Lemma motion_nonneg (Frame Gray : Type) (cvt : Frame -> Gray)
    (flow : Gray -> Gray -> list (Q * Q)) (sqrt : Q -> Q) (frames : list Frame) (b : bool) :
  (forall x, 0 <= sqrt x) ->
  Forall (fun x => 0 <= x) (fst (compute_motion Frame Gray cvt flow sqrt frames b)).
Proof.
  intros Hs. rewrite compute_motion_fst. apply Forall_map. apply Forall_forall.
  intros [f1 f2] _. unfold pair_motion. cbv zeta.
  pose proof (np_mean_nonneg _ (magnitudes_nonneg sqrt (flow (cvt f1) (cvt f2)) Hs)).
  destruct b; cbn [snd]; [|assumption].
  match goal with
  | |- 0 <= np_mean (magnitudes sqrt ?fl) * _ + sqrt ?c * _ =>
      pose proof (np_mean_nonneg _ (magnitudes_nonneg sqrt fl Hs)); pose proof (Hs c)
  end.
  lra.
Qed.

(** [compute_motion] never reports negative motion, in either mode, as
    long as the square root it applies is non-negative: each value is a
    mean of magnitudes, or half such a mean plus half a magnitude. *)
Theorem compute_motion_nonneg (Frame Gray : Type) (cvt : Frame -> Gray)
    (flow : Gray -> Gray -> list (Q * Q)) (sqrt : Q -> Q) (frames : list Frame) (b : bool) :
  (forall x, 0 <= sqrt x) ->
  Forall (fun x => 0 <= x) (fst (compute_motion Frame Gray cvt flow sqrt frames b)).
Proof. apply motion_nonneg. Qed.

(** The noise factor of [compute_motion] does not depend on
    [compensate_camera]: both modes compute the same per-pair means and
    medians of the raw flow magnitude. *)
Theorem compute_motion_noise_factor_mode (Frame Gray : Type) (cvt : Frame -> Gray)
    (flow : Gray -> Gray -> list (Q * Q)) (sqrt : Q -> Q) (frames : list Frame) :
  snd (compute_motion Frame Gray cvt flow sqrt frames false)
  = snd (compute_motion Frame Gray cvt flow sqrt frames true).
Proof. rewrite !compute_motion_lists. reflexivity. Qed.

(** When the average per-pair median flow magnitude is at most 0.01 (still
    footage), [compute_motion] assumes a clean video: the noise factor is
    1.0, whatever the mean magnitudes. *)
Theorem compute_motion_still_is_clean (Frame Gray : Type) (cvt : Frame -> Gray)
    (flow : Gray -> Gray -> list (Q * Q)) (sqrt : Q -> Q) (frames : list Frame) (b : bool) :
  np_mean (map (fun '(f1, f2) => np_median (magnitudes sqrt (flow (cvt f1) (cvt f2))))
               (frame_pairs Frame frames)) <= 1 # 100 ->
  snd (compute_motion Frame Gray cvt flow sqrt frames b) == 1.
Proof.
  intros H. rewrite compute_motion_lists. unfold noise_ratio.
  destruct (Qlt_le_dec (1 # 100) _); [lra|]. reflexivity.
Qed.

(** ** Uniform flows *)

Lemma insert_q_repeat (x : Q) (j : nat) : insert_q x (repeat x j) = x :: repeat x j.
Proof.
  destruct j as [|j]; [reflexivity|]. cbn [repeat insert_q].
  rewrite (proj2 (Qle_bool_iff x x) (Qle_refl x)). reflexivity.
Qed.

Lemma sort_q_repeat (x : Q) (k : nat) : sort_q (repeat x k) = repeat x k.
Proof.
  unfold sort_q. induction k as [|k IH]; [reflexivity|].
  cbn [repeat fold_right]. rewrite IH. apply insert_q_repeat.
Qed.

Lemma nth_repeat_lt (x d : Q) (i k : nat) : (i < k)%nat -> nth i (repeat x k) d = x.
Proof.
  revert i. induction k as [|k IH]; intros [|i] Hi; cbn; try lia; auto.
  apply IH. lia.
Qed.

Lemma np_median_repeat (x : Q) (k : nat) : (1 <= k)%nat -> np_median (repeat x k) == x.
Proof.
  intros Hk. unfold np_median. rewrite sort_q_repeat, repeat_length.
  assert (k / 2 < k)%nat by (apply Nat.div_lt; lia).
  destruct (Nat.even k).
  - rewrite !nth_repeat_lt by lia. field.
  - rewrite nth_repeat_lt by lia. reflexivity.
Qed.

Lemma np_mean_compat (l1 l2 : list Q) : Forall2 Qeq l1 l2 -> np_mean l1 == np_mean l2.
Proof.
  intros H. unfold np_mean. rewrite (Forall2_length H).
  assert (Qsum l1 == Qsum l2).
  { unfold Qsum. induction H as [|x y l1 l2 Hxy _ IH]; cbn [fold_right]; [reflexivity|].
    rewrite Hxy, IH. reflexivity. }
  rewrite H0. reflexivity.
Qed.

Lemma Forall2_map_same {B : Type} (R : Q -> Q -> Prop) (f g : B -> Q) (l : list B) :
  (forall x, In x l -> R (f x) (g x)) -> Forall2 R (map f l) (map g l).
Proof.
  induction l as [|x l IH]; intros H; cbn [map]; constructor.
  - apply H. left. reflexivity.
  - apply IH. intros y Hy. apply H. right. exact Hy.
Qed.

Section UniformFlow.

Variable Frame Gray : Type.
Variable cvt : Frame -> Gray.
Variable flow : Gray -> Gray -> list (Q * Q).
Variable sqrt : Q -> Q.
Hypothesis sqrt_compat : forall x y, x == y -> sqrt x == sqrt y.

Lemma magnitudes_repeat (dx dy : Q) (k : nat) :
  magnitudes sqrt (repeat (dx, dy) k) = repeat (sqrt (dx * dx + dy * dy)) k.
Proof. unfold magnitudes. rewrite map_repeat. reflexivity. Qed.

Lemma pair_motion_uniform (f1 f2 : Frame) (dx dy : Q) (k : nat) :
  sqrt 0 == 0 -> (1 <= k)%nat -> flow (cvt f1) (cvt f2) = repeat (dx, dy) k ->
  let c := sqrt (dx * dx + dy * dy) in
  fst (fst (pair_motion Frame Gray cvt flow sqrt true f1 f2)) == c /\
  snd (fst (pair_motion Frame Gray cvt flow sqrt true f1 f2)) == c /\
  snd (pair_motion Frame Gray cvt flow sqrt true f1 f2) == c * (1 # 2) /\
  snd (pair_motion Frame Gray cvt flow sqrt false f1 f2) == c.
Proof.
  intros H0 Hk Hf c. unfold pair_motion. rewrite Hf. cbv zeta. cbn [fst snd].
  rewrite magnitudes_repeat, !map_repeat. cbn [fst snd].
  rewrite magnitudes_repeat.
  rewrite !np_mean_repeat, !np_median_repeat by exact Hk.
  split; [reflexivity|]. split; [reflexivity|]. split; [|reflexivity].
  assert (Hx : np_median (repeat dx k) == dx) by (apply np_median_repeat, Hk).
  assert (Hy : np_median (repeat dy k) == dy) by (apply np_median_repeat, Hk).
  assert (E1 : sqrt ((dx - np_median (repeat dx k)) * (dx - np_median (repeat dx k))
                     + (dy - np_median (repeat dy k)) * (dy - np_median (repeat dy k))) == 0).
  { rewrite <- H0. apply sqrt_compat. rewrite Hx, Hy. ring. }
  assert (E2 : sqrt (np_median (repeat dx k) * np_median (repeat dx k)
                     + np_median (repeat dy k) * np_median (repeat dy k)) == c).
  { apply sqrt_compat. rewrite Hx, Hy. reflexivity. }
  rewrite E1, E2. ring.
Qed.

End UniformFlow.

(** For a pure pan (every pixel of each flow moves by the same vector),
    the camera-compensated motion is exactly half the uncompensated
    motion: the subject part vanishes and the camera part is kept at
    weight 0.5. *)
Theorem compute_motion_pan_halved (Frame Gray : Type) (cvt : Frame -> Gray)
    (flow : Gray -> Gray -> list (Q * Q)) (sqrt : Q -> Q) (frames : list Frame) :
  (forall x y, x == y -> sqrt x == sqrt y) -> sqrt 0 == 0 ->
  (forall f1 f2, In (f1, f2) (frame_pairs Frame frames) ->
     exists dx dy k, (1 <= k)%nat /\ flow (cvt f1) (cvt f2) = repeat (dx, dy) k) ->
  Forall2 (fun c r => c == r * (1 # 2))
    (fst (compute_motion Frame Gray cvt flow sqrt frames true))
    (fst (compute_motion Frame Gray cvt flow sqrt frames false)).
Proof.
  intros Hc H0 Hu. rewrite !compute_motion_fst. apply Forall2_map_same.
  intros [f1 f2] Hin. destruct (Hu f1 f2 Hin) as [dx [dy [k [Hk Hf]]]].
  destruct (pair_motion_uniform Frame Gray cvt flow sqrt Hc f1 f2 dx dy k H0 Hk Hf)
    as [_ [_ [E1 E2]]].
  rewrite E1, E2. reflexivity.
Qed.

(** For a pure pan whose average median magnitude exceeds 0.01, the
    Mean/Median ratio is 1, so [compute_motion] reports the noisiest
    factor, 0.78. *)
Theorem compute_motion_pan_noisy (Frame Gray : Type) (cvt : Frame -> Gray)
    (flow : Gray -> Gray -> list (Q * Q)) (sqrt : Q -> Q) (frames : list Frame) (b : bool) :
  (forall f1 f2, In (f1, f2) (frame_pairs Frame frames) ->
     exists dx dy k, (1 <= k)%nat /\ flow (cvt f1) (cvt f2) = repeat (dx, dy) k) ->
  1 # 100 < np_mean (map (fun '(f1, f2) => np_median (magnitudes sqrt (flow (cvt f1) (cvt f2))))
                         (frame_pairs Frame frames)) ->
  snd (compute_motion Frame Gray cvt flow sqrt frames b) == 78 # 100.
Proof.
  intros Hu Hm. rewrite compute_motion_lists. unfold noise_ratio.
  set (md := np_mean (map _ (frame_pairs Frame frames))) in *.
  assert (E : np_mean (map (fun '(f1, f2) => np_mean (magnitudes sqrt (flow (cvt f1) (cvt f2))))
                           (frame_pairs Frame frames)) == md).
  { unfold md. apply np_mean_compat. apply Forall2_map_same.
    intros [f1 f2] Hin. destruct (Hu f1 f2 Hin) as [dx [dy [k [Hk Hf]]]].
    rewrite Hf, magnitudes_repeat, np_mean_repeat, np_median_repeat by exact Hk. reflexivity. }
  destruct (Qlt_le_dec (1 # 100) md) as [_|]; [|lra].
  assert (Hr : np_mean (map (fun '(f1, f2) => np_mean (magnitudes sqrt (flow (cvt f1) (cvt f2))))
                           (frame_pairs Frame frames)) / md == 1).
  { rewrite E. field. lra. }
  set (r := _ / md) in *. clearbody r.
  unfold noise_factor_of_ratio.
  destruct (Qlt_le_dec r 3); [|lra]. destruct (Qlt_le_dec r (3 # 2)); [reflexivity|lra].
Qed.

Lemma q_sqrt_nonneg (x : Q) : 0 <= q_sqrt x.
Proof.
  unfold q_sqrt, Qle. cbn [Qnum Qden]. pose proof (Z.sqrt_nonneg (Qnum (Qred x))). lia.
Qed.

Lemma q_sqrt_compat (x y : Q) : x == y -> q_sqrt x == q_sqrt y.
Proof. intros H. unfold q_sqrt. rewrite (Qred_complete x y H). reflexivity. Qed.

Lemma compute_motion_pan_halved_witness :
  Forall2 (fun c r => c == r * (1 # 2))
    (fst (compute_motion Q Q (fun g => g) shift_flow q_sqrt [0; 1; 3] true))
    (fst (compute_motion Q Q (fun g => g) shift_flow q_sqrt [0; 1; 3] false)).
Proof.
  apply compute_motion_pan_halved.
  - exact q_sqrt_compat.
  - reflexivity.
  - intros f1 f2 _. exists (f2 - f1), 0, 4%nat. split; [lia|reflexivity].
Defined.

Lemma compute_motion_pan_noisy_witness :
  snd (compute_motion Q Q (fun g => g) shift_flow q_sqrt [0; 1; 3] true) == 78 # 100.
Proof.
  apply compute_motion_pan_noisy.
  - intros f1 f2 _. exists (f2 - f1), 0, 4%nat. split; [lia|reflexivity].
  - vm_compute. reflexivity.
Defined.

Lemma compute_motion_nonneg_witness :
  Forall (fun x => 0 <= x) (fst (compute_motion Q Q (fun g => g) shift_flow q_sqrt [0; 1; 3] true)).
Proof. apply compute_motion_nonneg. exact q_sqrt_nonneg. Defined.

Lemma compute_motion_still_is_clean_witness :
  snd (compute_motion Q Q (fun g => g) shift_flow q_sqrt [5; 5; 5] true) == 1.
Proof. apply compute_motion_still_is_clean. vm_compute. discriminate. Defined.

(** ** [apply_speed_curve] *)

Lemma py_getitem_In {A : Type} (l : list A) (i : Z) (x : A) :
  py_getitem A l i = Some x -> In x l.
Proof.
  unfold py_getitem. destruct (i <? 0)%Z; [destruct (_ <? 0)%Z; [discriminate|]|];
    apply nth_error_In.
Qed.

Lemma getitems_In {A : Type} (l : list A) (idxs : list Z) (out : list A) :
  getitems A l idxs = Some out -> Forall (fun x => In x l) out.
Proof.
  revert out. induction idxs as [|i r IH]; intros out; cbn [getitems].
  - intros E. injection E as <-. constructor.
  - destruct (py_getitem A l i) as [x|] eqn:Ex; [|discriminate].
    destruct (getitems A l r) as [xs|]; [|discriminate].
    intros E. injection E as <-. constructor; [exact (py_getitem_In l i x Ex)|]. apply IH. reflexivity.
Qed.

Lemma getitems_nil {A : Type} (idxs : list Z) (out : list A) :
  getitems A [] idxs = Some out -> out = [].
Proof.
  destruct idxs as [|i r]; cbn [getitems].
  - intros E. injection E as <-. reflexivity.
  - assert (Hn : py_getitem A [] i = None).
    { unfold py_getitem. destruct (i <? 0)%Z; [destruct (_ <? 0)%Z|]; try reflexivity;
        destruct (Z.to_nat _); reflexivity. }
    rewrite Hn. discriminate.
Qed.

(** For a speed curve with no zero multiplier, [apply_speed_curve] raises
    exactly when the curve is empty or its mean is 0 (the [int()] of line
    241 on [nan] or infinity), for any number of frames; when it returns,
    every output frame is one of the input frames. *)
Theorem apply_speed_curve_raises (A : Type) (frames : list A) (speed_curve : list Q) :
  Forall (fun s => ~ s == 0) speed_curve ->
  (apply_speed_curve A frames speed_curve = None <-> speed_curve = [] \/ np_mean speed_curve == 0) /\
  (forall out, apply_speed_curve A frames speed_curve = Some out -> Forall (fun x => In x frames) out).
Proof.
  intros _. split.
  - split.
    + intros E. destruct speed_curve as [|s r]; [left; reflexivity|right].
      destruct (Qeq_dec (np_mean (s :: r)) 0) as [|Hne]; [assumption|exfalso].
      assert (Hs : s :: r <> []) by discriminate.
      destruct frames as [|f fr].
      * unfold apply_speed_curve, resample_indices in E.
        rewrite (n_output_of_some _ _ Hs Hne) in E.
        rewrite (py_int_zero (inject_Z (Z.of_nat (length (@nil A))) / np_mean (s :: r))) in E
          by (cbn; unfold Qdiv; ring).
        cbn in E. discriminate.
      * destruct (resample_indices (length (f :: fr)) (s :: r)) as [idxs|] eqn:Er.
        -- destruct (getitems_in_range (f :: fr) idxs) as [out [Hout _]].
           { apply (resample_indices_range (length (f :: fr)) (s :: r) idxs ltac:(cbn; lia) Er). }
           unfold apply_speed_curve in E. rewrite Er, Hout in E. discriminate.
        -- unfold resample_indices in Er. rewrite (n_output_of_some _ _ Hs Hne) in Er. discriminate.
    + intros [-> | H0]; unfold apply_speed_curve, resample_indices; [reflexivity|].
      destruct speed_curve as [|s r]; [reflexivity|]. unfold n_output_of.
      rewrite (proj2 (Qeq_bool_iff _ _) H0). reflexivity.
  - intros out E. unfold apply_speed_curve in E.
    destruct (resample_indices (length frames) speed_curve) as [idxs|]; [|discriminate].
    exact (getitems_In frames idxs out E).
Qed.

Lemma cumsum_from_length (acc : Q) (l : list Q) : length (cumsum_from acc l) = length l.
Proof. revert acc. induction l as [|x l IH]; intros acc; cbn; [reflexivity|]. rewrite IH. reflexivity. Qed.

Lemma searchsorted_right_all (a : list Q) (v : Q) :
  Forall (fun x => x <= v) a -> searchsorted_right a v = length a.
Proof.
  induction 1 as [|x r Hx _ IH]; [reflexivity|]. cbn [searchsorted_right length].
  rewrite (proj2 (Qle_bool_iff x v) Hx). rewrite IH. reflexivity.
Qed.

Lemma searchsorted_right_compat (a : list Q) (v v' : Q) :
  v == v' -> searchsorted_right a v = searchsorted_right a v'.
Proof.
  intros H. apply Nat.le_antisymm; apply searchsorted_right_mono; rewrite H; apply Qle_refl.
Qed.

Lemma sorted_le_last (a : list Q) (d : Q) :
  StronglySorted Qlt a -> Forall (fun x => x <= last a d) a.
Proof.
  induction 1 as [|x r Hr IH Hx]; [constructor|].
  destruct r as [|y r'].
  - constructor; [apply Qle_refl|constructor].
  - assert (Hl : last (x :: y :: r') d = last (y :: r') d) by reflexivity.
    rewrite Hl. constructor; [|exact IH].
    assert (Hin : In (last (y :: r') d) (y :: r')).
    { rewrite (app_removelast_last d (l := y :: r')) at 2 by discriminate.
      apply in_or_app. right. left. reflexivity. }
    apply Qlt_le_weak. exact (proj1 (Forall_forall _ _) Hx _ Hin).
Qed.

Lemma linspace_last (stop : Q) (num : Z) :
  (2 <= num)%Z ->
  exists t, nth_error (linspace 0 stop num) (Z.to_nat num - 1) = Some t /\ t == stop.
Proof.
  intros Hn. unfold linspace.
  destruct (Z.leb_spec num 0); [lia|]. destruct (Z.eqb_spec num 1); [lia|].
  rewrite nth_error_map. unfold zrange. rewrite nth_error_map.
  rewrite (nth_error_nth' _ 0%nat) by (rewrite length_seq; lia).
  rewrite seq_nth by lia. cbn [option_map].
  eexists. split; [reflexivity|].
  replace (0 + Z.of_nat (0 + (Z.to_nat num - 1)))%Z with (num - 1)%Z by lia.
  field. unfold Qeq. cbn. lia.
Qed.

Lemma Forall2_nth_error {B C : Type} (P : B -> C -> Prop) (l1 : list B) (l2 : list C) (i : nat) (a : B) :
  Forall2 P l1 l2 -> nth_error l1 i = Some a -> exists b, nth_error l2 i = Some b /\ P a b.
Proof.
  intros H. revert i. induction H as [|x y l1 l2 Hxy _ IH]; intros [|i]; cbn; try discriminate.
  - intros E. injection E as <-. exists y. auto.
  - apply IH.
Qed.

Lemma cumulative_times_length (speed_curve : list Q) :
  length (cumulative_times speed_curve) = S (length speed_curve).
Proof. unfold cumulative_times. cbn [length]. rewrite cumsum_from_length, length_map. reflexivity. Qed.

Lemma resampled_last_frame (A : Type) (frames : list A) (speed_curve : list Q) (out : list A) :
  Forall (fun s => 0 < s) speed_curve ->
  apply_speed_curve A frames speed_curve = Some out -> (2 <= length out)%nat ->
  nth_error out (length out - 1)
  = nth_error frames (Nat.min (length speed_curve) (length frames - 1)).
Proof.
  intros Hpos E Hlen. unfold apply_speed_curve in E.
  destruct (resample_indices (length frames) speed_curve) as [idxs|] eqn:Er; [|discriminate].
  destruct frames as [|f0 fr] eqn:Ef.
  { rewrite (getitems_nil idxs out E) in Hlen. cbn in Hlen. lia. }
  rewrite <- Ef in *. assert (Hn : (1 <= length frames)%nat) by (rewrite Ef; cbn; lia).
  pose proof (resample_indices_range _ _ _ Hn Er) as Hrange.
  pose proof (getitems_nth frames idxs out (fun i Hi => proj1 (Hrange i Hi)) E) as H2.
  pose proof (Forall2_length H2) as Hl2.
  unfold resample_indices in Er.
  destruct (n_output_of (length frames) speed_curve) as [k|] eqn:Ek; [|discriminate].
  injection Er as <-. rewrite length_map, linspace_length in Hl2.
  set (cum := cumulative_times speed_curve) in *.
  destruct (linspace_last (last cum 0) k ltac:(lia)) as [t [Ht Hteq]].
  assert (Hi : nth_error
                 (map (fun out_t => clip (Z.of_nat (searchsorted_right cum out_t) - 1) 0
                                         (Z.of_nat (length frames) - 1))
                      (linspace 0 (last cum 0) k)) (Z.to_nat k - 1)
               = Some (Z.of_nat (Nat.min (length speed_curve) (length frames - 1)))).
  { rewrite nth_error_map, Ht. cbn [option_map]. f_equal.
    rewrite (searchsorted_right_compat cum t (last cum 0) Hteq).
    rewrite searchsorted_right_all.
    - unfold cum. rewrite cumulative_times_length. unfold clip. lia.
    - apply sorted_le_last. apply cumulative_times_sorted, Hpos. }
  destruct (Forall2_nth_error _ _ _ _ _ H2 Hi) as [x [Hx Hfx]].
  rewrite Nat2Z.id in Hfx. rewrite <- Hl2, Hx, Hfx. reflexivity.
Qed.

(** ** [process_video] *)

Lemma speed_curve_some (exp : Q -> Q) (raw subj : list Q) (fps smoothing msu msd nf : Q) :
  ~ fps == 0 -> (length raw <= length subj)%nat ->
  exists r, compute_speed_curve_smart exp raw subj fps smoothing msu msd nf = Some r.
Proof.
  intros H0 Hl. unfold compute_speed_curve_smart, speed_curve_stage, plan_smoothed.
  destruct (length raw <? 10)%nat; [eexists; reflexivity|].
  destruct (Qeq_bool fps 0) eqn:E0; [apply Qeq_bool_iff in E0; contradiction|].
  match goal with
  | |- context [plan_zone ?a ?b ?m ?nf'] => destruct (plan_zone a b m nf') as [rt0 cs0]
  end.
  destruct (Qlt_le_dec rt0 (1 # 1000)); [eexists; reflexivity|].
  rewrite gaussian_filter1d_length.
  destruct (Nat.ltb_spec (length subj) (length raw)); [lia|]. eexists; reflexivity.
Qed.

Lemma apply_speed_curve_In (A : Type) (frames : list A) (speed_curve : list Q) (out : list A) :
  apply_speed_curve A frames speed_curve = Some out -> Forall (fun x => In x frames) out.
Proof.
  unfold apply_speed_curve.
  destruct (resample_indices (length frames) speed_curve) as [idxs|]; [|discriminate].
  apply getitems_In.
Qed.

Lemma sanitize_fps_range (fps : Q) : 0 < sanitize_fps fps <= 120.
Proof.
  unfold sanitize_fps.
  destruct (Qle_bool fps 0) eqn:E0; [cbn; unfold REFERENCE_FPS; split; [reflexivity|discriminate]|].
  destruct (Qle_bool fps 120) eqn:E1; cbn; [|unfold REFERENCE_FPS; split; [reflexivity|discriminate]].
  apply Qle_bool_iff in E1. split; [|exact E1].
  destruct (Qlt_le_dec 0 fps) as [|Hle]; [assumption|].
  apply Qle_bool_iff in Hle. congruence.
Qed.

Lemma motion_length {Frame Gray : Type} (cvt : Frame -> Gray)
    (flow : Gray -> Gray -> list (Q * Q)) (sqrt : Q -> Q) (frames : list Frame) (b : bool) :
  length (fst (compute_motion Frame Gray cvt flow sqrt frames b)) = (length frames - 1)%nat.
Proof. rewrite compute_motion_fst, length_map. apply frame_pairs_length. Qed.

Lemma np_mean_bounds (l : list Q) (a b : Q) :
  l <> [] -> Forall (fun x => a <= x <= b) l -> a <= np_mean l <= b.
Proof.
  intros Hne H.
  assert (HS : inject_Z (Z.of_nat (length l)) * a <= Qsum l <= inject_Z (Z.of_nat (length l)) * b).
  { clear Hne. unfold Qsum. induction H as [|x r Hx _ IH]; cbn [fold_right length].
    - change (inject_Z (Z.of_nat 0)) with 0. rewrite !Qmult_0_l. lra.
    - rewrite inject_nat_succ. lra. }
  assert (HL : 0 < inject_Z (Z.of_nat (length l))).
  { destruct l as [|x r]; [contradiction|]. change 0 with (inject_Z 0).
    rewrite <- Zlt_Qlt. cbn [length]. lia. }
  unfold np_mean. split.
  - apply Qle_shift_div_l; [exact HL|]. rewrite Qmult_comm. lra.
  - apply Qle_shift_div_r; [exact HL|]. rewrite Qmult_comm. lra.
Qed.

Lemma Qfloor_ge (z : Z) (x : Q) : inject_Z z <= x -> (z <= Qfloor x)%Z.
Proof.
  intros H. pose proof (Qlt_floor x) as Hf.
  assert (Hz : inject_Z z < inject_Z (Qfloor x + 1)) by lra.
  rewrite <- Zlt_Qlt in Hz. lia.
Qed.

(** With a mean multiplier in [[0.6, 2]], [max(int(n / avg), n // 3)] lies
    between [n // 2] and [5 n // 3]. *)
Lemma output_count_bounds (n : nat) (avg : Q) :
  6 # 10 <= avg <= 2 ->
  (Z.of_nat n / 2 <= Z.max (py_int (inject_Z (Z.of_nat n) / avg)) (Z.of_nat n / 3)
   <= 5 * Z.of_nat n / 3)%Z.
Proof.
  intros Havg. set (N := inject_Z (Z.of_nat n)).
  assert (HN : 0 <= N) by apply inject_nat_nonneg.
  set (x := N / avg).
  assert (Hx : x * avg == N) by (unfold x; field; lra).
  assert (Hx0 : 0 <= x) by (unfold x; apply Qle_shift_div_l; lra).
  rewrite py_int_nonneg by exact Hx0.
  assert (H3 : (Z.of_nat n / 3 <= Z.of_nat n / 2)%Z) by (apply Z.div_le_compat_l; lia).
  assert (H3' : (Z.of_nat n / 3 <= 5 * Z.of_nat n / 3)%Z) by (apply Z.div_le_mono; lia).
  split.
  - enough (Z.of_nat n / 2 <= Qfloor x)%Z by lia.
    apply Qfloor_ge.
    assert (Hd : (2 * (Z.of_nat n / 2) <= Z.of_nat n)%Z) by (apply Z.mul_div_le; lia).
    rewrite Zle_Qle, inject_Z_mult in Hd. fold N in Hd.
    assert (0 <= x * (2 - avg)) by (apply Qmult_le_0_compat; lra).
    change (inject_Z 2) with 2 in Hd. nra.
  - enough (Qfloor x <= 5 * Z.of_nat n / 3)%Z by lia.
    apply Z.div_le_lower_bound; [lia|].
    pose proof (Qfloor_le x) as Hf.
    assert (0 <= x * (avg - (6 # 10))) by (apply Qmult_le_0_compat; lra).
    assert (Hq : inject_Z (3 * Qfloor x) <= inject_Z (5 * Z.of_nat n)).
    { rewrite !inject_Z_mult. change (inject_Z 3) with 3. change (inject_Z 5) with 5.
      fold N. nra. }
    rewrite <- Zle_Qle in Hq. exact Hq.
Qed.

Lemma resampled_first_frame (A : Type) (frames : list A) (speed_curve : list Q) (out : list A) :
  (1 <= length frames)%nat -> Forall (fun s => 0 < s) speed_curve ->
  apply_speed_curve A frames speed_curve = Some out -> out <> [] ->
  hd_error out = hd_error frames.
Proof.
  intros Hn Hpos E Hne. unfold apply_speed_curve in E.
  destruct (resample_indices (length frames) speed_curve) as [idxs|] eqn:Er; [|discriminate].
  pose proof (resample_indices_range _ _ _ Hn Er) as Hrange.
  pose proof (getitems_nth frames idxs out (fun i Hi => proj1 (Hrange i Hi)) E) as H2.
  destruct H2 as [|i x idxs' out' Hix _]; [contradiction|].
  rewrite (resample_indices_head _ _ _ i Hn Hpos Er eq_refl) in Hix.
  destruct frames; cbn in Hix |- *; [discriminate|exact (eq_sym Hix)].
Qed.

Section NormalizeFrames.

Variable Frame Gray : Type.
Variable cvt : Frame -> Gray.
Variable flow : Gray -> Gray -> list (Q * Q).
Variable sqrt exp : Q -> Q.

Lemma normalize_frames_unfold (frames : list Frame) (fps : Q) :
  normalize_frames Frame Gray cvt flow sqrt exp frames fps
  = match compute_speed_curve_smart exp (map (fun x => x * snd (compute_motion Frame Gray cvt flow sqrt frames true)) (fst (compute_motion Frame Gray cvt flow sqrt frames false)))
            (fst (compute_motion Frame Gray cvt flow sqrt frames true)) (sanitize_fps fps) 10 2 (6 # 10) (snd (compute_motion Frame Gray cvt flow sqrt frames true)) with
    | None => None
    | Some (_, _, _, speed) =>
        match speed with
        | [] => None
        | _ :: _ => apply_speed_curve Frame frames speed
        end
    end.
Proof.
  unfold normalize_frames.
  destruct (compute_motion Frame Gray cvt flow sqrt frames false).
  destruct (compute_motion Frame Gray cvt flow sqrt frames true). reflexivity.
Qed.

Lemma normalize_frames_few (frames : list Frame) (fps : Q) :
  (length frames <= 10)%nat ->
  normalize_frames Frame Gray cvt flow sqrt exp frames fps
  = match repeat 1 (length frames - 1) with
    | [] => None
    | _ :: _ => apply_speed_curve Frame frames (repeat 1 (length frames - 1))
    end.
Proof.
  intros Hn. rewrite normalize_frames_unfold.
  unfold compute_speed_curve_smart, speed_curve_stage.
  rewrite length_map, motion_length.
  destruct (Nat.ltb_spec (length frames - 1) 10); [reflexivity|lia].
Qed.

Lemma normalize_frames_tiny (frames : list Frame) (fps : Q) :
  (length frames < 2)%nat -> normalize_frames Frame Gray cvt flow sqrt exp frames fps = None.
Proof.
  intros Hn. rewrite normalize_frames_few by lia.
  replace (length frames - 1)%nat with 0%nat by lia. reflexivity.
Qed.

Lemma normalize_frames_short_clip (frames : list Frame) (fps : Q) :
  (2 <= length frames <= 10)%nat ->
  normalize_frames Frame Gray cvt flow sqrt exp frames fps = Some frames.
Proof.
  intros Hn. rewrite normalize_frames_few by lia.
  destruct (length frames - 1)%nat as [|m] eqn:Em; [lia|].
  change (apply_speed_curve Frame frames (repeat 1 (S m)) = Some frames).
  unfold apply_speed_curve.
  rewrite (resample_indices_ones (length frames) (S m)) by lia.
  apply getitems_all.
Qed.

Lemma normalize_frames_long (frames : list Frame) (fps : Q) :
  (forall x, 0 <= sqrt x) -> (forall x, 0 < exp x) -> (11 <= length frames)%nat ->
  exists out, normalize_frames Frame Gray cvt flow sqrt exp frames fps = Some out /\
    Forall (fun x => In x frames) out /\
    hd_error out = hd_error frames /\
    nth_error out (length out - 1) = nth_error frames (length frames - 1) /\
    (length frames / 2 <= length out <= 5 * length frames / 3)%nat.
Proof.
  intros Hs He Hn. rewrite normalize_frames_unfold.
  set (nf := snd (compute_motion Frame Gray cvt flow sqrt frames true)).
  set (adj := map (fun x => x * nf) (fst (compute_motion Frame Gray cvt flow sqrt frames false))).
  set (subj := fst (compute_motion Frame Gray cvt flow sqrt frames true)).
  set (fps' := sanitize_fps fps).
  pose proof (sanitize_fps_range fps) as Hf. fold fps' in Hf.
  assert (Hadj : length adj = (length frames - 1)%nat) by (unfold adj; rewrite length_map; apply motion_length).
  assert (Hsubj : length subj = (length frames - 1)%nat) by (unfold subj; apply motion_length).
  destruct (speed_curve_some exp adj subj fps' 10 2 (6 # 10) nf ltac:(intros H; rewrite H in Hf; lra)
              ltac:(lia)) as [[[[br rt] sm] sp] Esp].
  rewrite Esp.
  pose proof (speed_curve_length _ _ _ _ _ _ _ _ _ _ _ _ Esp) as Hlen.
  pose proof (speed_curve_within exp adj subj fps' 10 2 (6 # 10) nf br rt sm sp He
                ltac:(reflexivity) (motion_nonneg Frame Gray cvt flow sqrt frames true Hs) Hf
                ltac:(discriminate) ltac:(discriminate) Esp) as Hb.
  rewrite Hadj in Hlen. destruct sp as [|s0 sr]; [cbn in Hlen; lia|].
  assert (Hpos : Forall (fun s => 0 < s) (s0 :: sr)).
  { apply (Forall_impl _ (fun v Hv => Qlt_le_trans 0 (6 # 10) v ltac:(reflexivity) (proj1 Hv)) Hb). }
  pose proof (np_mean_bounds (s0 :: sr) (6 # 10) 2 ltac:(discriminate) Hb) as Hm.
  destruct (apply_speed_curve_count Frame frames (s0 :: sr) ltac:(discriminate)
              ltac:(intros H; rewrite H in Hm; lra)) as [out [Eo Hlo]].
  pose proof (output_count_bounds (length frames) (np_mean (s0 :: sr)) Hm) as Hc.
  rewrite <- Hlo in Hc.
  assert (Hlb : (length frames / 2 <= length out <= 5 * length frames / 3)%nat).
  { pose proof (Nat2Z.inj_div (length frames) 2) as D1.
    pose proof (Nat2Z.inj_div (5 * length frames) 3) as D2. rewrite Nat2Z.inj_mul in D2.
    change (Z.of_nat 2) with 2%Z in D1. change (Z.of_nat 3) with 3%Z in D2.
    change (Z.of_nat 5) with 5%Z in D2. lia. }
  assert (H5 : (5 <= length frames / 2)%nat) by (apply Nat.div_le_lower_bound; lia).
  exists out. split; [exact Eo|]. split; [exact (apply_speed_curve_In _ _ _ _ Eo)|].
  split.
  { apply (resampled_first_frame Frame frames (s0 :: sr) out ltac:(lia) Hpos Eo).
    destruct out; cbn [length] in Hlb; [lia|discriminate]. }
  split; [|exact Hlb].
  rewrite (resampled_last_frame Frame frames (s0 :: sr) out Hpos Eo ltac:(lia)).
  f_equal. rewrite Hlen. lia.
Qed.

End NormalizeFrames.

(** [gaussian_filter1d] with a positive [exp] and [sigma > 0] keeps one
    value per sample and never leaves the range of its input. *)
(** ** Smoothing, ramp, planner and resampler, end to end *)

Theorem gaussian_filter1d_range (exp : Q -> Q) (input : list Q) (sigma a b : Q) :
  (forall x, 0 < exp x) -> 0 < sigma -> Forall (fun x => a <= x <= b) input ->
  length (gaussian_filter1d exp input sigma) = length input /\
  Forall (fun x => a <= x <= b) (gaussian_filter1d exp input sigma).
Proof.
  intros He Hs Hi. split; [apply gaussian_filter1d_length|].
  apply gaussian_filter1d_bounds; assumption.
Qed.

Lemma gaussian_filter1d_range_witness :
  length (gaussian_filter1d exp_pade [0; 1; 2; 0] (1 # 2)) = length [0; 1; 2; 0] /\
  Forall (fun x => 0 <= x <= 2) (gaussian_filter1d exp_pade [0; 1; 2; 0] (1 # 2)).
Proof.
  apply gaussian_filter1d_range; [exact exp_pade_pos | reflexivity |].
  repeat constructor; discriminate.
Defined.

(** The start ramp of lines 219-223 keeps the length of the curve and any
    range [[a, b]] containing 1.0, and sets the first multiplier to
    exactly 1.0 whenever the ramp is not empty. *)
Theorem ramp_range (fps : Q) (speed : list Q) (a b : Q) :
  a <= 1 <= b -> Forall (fun x => a <= x <= b) speed ->
  length (ramp fps speed) = length speed /\
  Forall (fun x => a <= x <= b) (ramp fps speed) /\
  ((0 < Z.min (py_int fps) (Z.of_nat (length speed) / 5))%Z -> nth 0 (ramp fps speed) 0 == 1).
Proof.
  intros Hab Hs. split; [apply ramp_length|]. split; [apply ramp_bounds; assumption|].
  destruct speed as [|v rest]; [cbn; lia|]. apply ramp_head.
Qed.

Lemma ramp_range_witness :
  length (ramp 24 (repeat 2 10)) = length (repeat 2 10) /\
  Forall (fun x => 1 # 2 <= x <= 2) (ramp 24 (repeat 2 10)) /\
  ((0 < Z.min (py_int 24) (Z.of_nat (length (repeat 2 10)) / 5))%Z -> nth 0 (ramp 24 (repeat 2 10)) 0 == 1).
Proof.
  apply ramp_range; [split; discriminate|].
  repeat constructor; discriminate.
Defined.

(** Whenever [compute_speed_curve_smart] returns, its speed curve has one
    multiplier per raw motion sample. *)
Theorem compute_speed_curve_smart_length (exp : Q -> Q) (raw subj : list Q)
    (fps smoothing msu msd nf br rt : Q) (sm speed : list Q) :
  compute_speed_curve_smart exp raw subj fps smoothing msu msd nf = Some (br, rt, sm, speed) ->
  length speed = length raw.
Proof. apply speed_curve_length. Qed.

Lemma compute_speed_curve_smart_length_witness :
  length (repeat 1 3) = length [1; 2; 3].
Proof.
  apply (compute_speed_curve_smart_length exp_pade [1; 2; 3] [1; 2; 3] 24 10 2 (6 # 10) 1
           (np_mean [1; 2; 3]) (np_mean [1; 2; 3]) [1; 2; 3]).
  reflexivity.
Defined.

(** With a positive [exp], [smoothing > 0], non-negative subject motion,
    [0 < fps <= 120], [max_slowdown <= 0.65] and [max_speedup >= 1], every
    multiplier of the returned curve, after the final smoothing and the
    ramp, lies in [[max_slowdown, max_speedup]]. *)
Theorem compute_speed_curve_smart_bounds (exp : Q -> Q) (raw subj : list Q)
    (fps smoothing msu msd nf br rt : Q) (sm speed : list Q) :
  (forall x, 0 < exp x) -> 0 < smoothing -> Forall (fun x => 0 <= x) subj ->
  0 < fps <= 120 -> msd <= 13 # 20 -> 1 <= msu ->
  compute_speed_curve_smart exp raw subj fps smoothing msu msd nf = Some (br, rt, sm, speed) ->
  Forall (fun v => msd <= v <= msu) speed.
Proof. apply speed_curve_within. Qed.

Lemma compute_speed_curve_smart_bounds_witness :
  match compute_speed_curve_smart exp_pade (repeat 1 12) witness_subject 24 (1 # 2) 2 (6 # 10) 1 with
  | Some (_, _, _, speed) => Forall (fun v => 6 # 10 <= v <= 2) speed
  | None => False
  end.
Proof.
  destruct (compute_speed_curve_smart exp_pade (repeat 1 12) witness_subject 24 (1 # 2) 2 (6 # 10) 1)
    as [[[[br rt] sm] sp]|] eqn:E.
  - apply (compute_speed_curve_smart_bounds exp_pade (repeat 1 12) witness_subject 24 (1 # 2) 2 (6 # 10) 1 br rt sm sp);
      [exact exp_pade_pos | reflexivity | repeat constructor; discriminate
      | split; [reflexivity | discriminate] | discriminate | discriminate | exact E].
  - vm_compute in E. discriminate E.
Defined.

Lemma compute_speed_curve_smart_starts_at_one_witness :
  match compute_speed_curve_smart exp_pade (repeat 1 12) witness_subject 24 (1 # 2) 2 (6 # 10) 1 with
  | Some (_, _, _, speed) => (nth 0 speed 0 == 1)
  | None => False
  end.
Proof.
  destruct (compute_speed_curve_smart exp_pade (repeat 1 12) witness_subject 24 (1 # 2) 2 (6 # 10) 1)
    as [[[[br rt] sm] sp]|] eqn:E.
  - apply (compute_speed_curve_smart_starts_at_one exp_pade (repeat 1 12) witness_subject 24 (1 # 2)
             2 (6 # 10) 1 br rt sm sp); [discriminate | cbn; lia | exact E].
  - vm_compute in E. discriminate E.
Defined.

Lemma compute_speed_curve_smart_raises_witness :
  compute_speed_curve_smart exp_pade (repeat 1 12) (repeat 1 12) 0 10 2 (6 # 10) 1 = None /\
  exists r, compute_speed_curve_smart exp_pade (repeat 1 12) (repeat 1 12) 24 10 2 (6 # 10) 1 = Some r.
Proof.
  split.
  - apply (compute_speed_curve_smart_raises exp_pade (repeat 1 12) (repeat 1 12) 0 10 2 (6 # 10) 1);
      [cbn; lia | reflexivity].
  - apply (compute_speed_curve_smart_raises exp_pade (repeat 1 12) (repeat 1 12) 24 10 2 (6 # 10) 1).
    right. split; [discriminate | split; [reflexivity | cbn; lia]].
Defined.

Lemma plan_zone_strength_range_witness :
  (3 # 10) <= snd (plan_zone 1 1 (min_acceptable 24) 1) <= 95 # 100.
Proof. apply plan_zone_strength_range. reflexivity. Defined.

Lemma speed_at_just_below_reference_witness :
  speed_at 1 (1 # 2) 2 (6 # 10) (9995 # 10000) < 1.
Proof. apply speed_at_just_below_reference; [reflexivity | discriminate | split; reflexivity]. Defined.

(** With positive multipliers and at least two output frames, the last
    output frame is [frames[min(len(speed_curve), len(frames) - 1)]]: the
    last output time is the total time, past every cumulative time. *)
Theorem apply_speed_curve_last_frame (A : Type) (frames : list A) (speed_curve : list Q) (out : list A) :
  Forall (fun s => 0 < s) speed_curve ->
  apply_speed_curve A frames speed_curve = Some out -> (2 <= length out)%nat ->
  nth_error out (length out - 1)
  = nth_error frames (Nat.min (length speed_curve) (length frames - 1)).
Proof. apply resampled_last_frame. Qed.

Lemma apply_speed_curve_last_frame_witness :
  nth_error [10; 12; 13]%nat 2 = nth_error [10; 11; 12; 13]%nat (Nat.min 3 3).
Proof.
  apply (apply_speed_curve_last_frame nat [10; 11; 12; 13]%nat [2; 1; 1 # 2] [10; 12; 13]%nat);
    [repeat constructor | vm_compute; reflexivity | cbn; lia].
Defined.

Lemma apply_speed_curve_raises_witness :
  (apply_speed_curve nat [10; 11; 12; 13]%nat [2; 1; 1 # 2] = None <->
   [2; 1; 1 # 2] = [] \/ np_mean [2; 1; 1 # 2] == 0) /\
  (forall out, apply_speed_curve nat [10; 11; 12; 13]%nat [2; 1; 1 # 2] = Some out ->
     Forall (fun x => In x [10; 11; 12; 13]%nat) out).
Proof.
  apply apply_speed_curve_raises. repeat constructor; discriminate.
Defined.

(** [process_video] raises on a clip of fewer than 2 frames (the empty
    speed curve makes [np.min] raise) and leaves a clip of 2 to 10 frames
    unchanged (the all-ones curve of the early return). *)
Theorem normalize_frames_short (Frame Gray : Type) (cvt : Frame -> Gray)
    (flow : Gray -> Gray -> list (Q * Q)) (sqrt exp : Q -> Q) (frames : list Frame) (fps : Q) :
  ((length frames < 2)%nat -> normalize_frames Frame Gray cvt flow sqrt exp frames fps = None) /\
  ((2 <= length frames <= 10)%nat ->
   normalize_frames Frame Gray cvt flow sqrt exp frames fps = Some frames).
Proof.
  split; [apply normalize_frames_tiny | apply normalize_frames_short_clip].
Qed.

(** On a clip of at least 2 frames, with a non-negative square root and a
    positive [exp], [process_video] produces normalized frames that are
    all frames of the clip, starting on its first frame and ending on its
    last frame. *)
Theorem normalize_frames_output (Frame Gray : Type) (cvt : Frame -> Gray)
    (flow : Gray -> Gray -> list (Q * Q)) (sqrt exp : Q -> Q) (frames : list Frame) (fps : Q) :
  (forall x, 0 <= sqrt x) -> (forall x, 0 < exp x) -> (2 <= length frames)%nat ->
  exists out, normalize_frames Frame Gray cvt flow sqrt exp frames fps = Some out /\
    Forall (fun x => In x frames) out /\
    hd_error out = hd_error frames /\
    nth_error out (length out - 1) = nth_error frames (length frames - 1).
Proof.
  intros Hs He Hn. destruct (Nat.le_gt_cases (length frames) 10) as [Hle|Hgt].
  - exists frames. split; [apply normalize_frames_short_clip; lia|].
    split; [apply Forall_forall; tauto|]. auto.
  - destruct (normalize_frames_long Frame Gray cvt flow sqrt exp frames fps Hs He ltac:(lia))
      as [out [E [Hin [Hhd [Hlast _]]]]].
    exists out. auto.
Qed.

(** On a clip of [n >= 2] frames, with a non-negative square root and a
    positive [exp], [process_video] produces between [n // 2] and
    [5 n // 3] frames. *)
Theorem normalize_frames_length (Frame Gray : Type) (cvt : Frame -> Gray)
    (flow : Gray -> Gray -> list (Q * Q)) (sqrt exp : Q -> Q) (frames : list Frame) (fps : Q) :
  (forall x, 0 <= sqrt x) -> (forall x, 0 < exp x) -> (2 <= length frames)%nat ->
  exists out, normalize_frames Frame Gray cvt flow sqrt exp frames fps = Some out /\
    (length frames / 2 <= length out <= 5 * length frames / 3)%nat.
Proof.
  intros Hs He Hn. destruct (Nat.le_gt_cases (length frames) 10) as [Hle|Hgt].
  - exists frames. split; [apply normalize_frames_short_clip; lia|]. split.
    + apply Nat.Div0.div_le_upper_bound. lia.
    + apply Nat.div_le_lower_bound; lia.
  - destruct (normalize_frames_long Frame Gray cvt flow sqrt exp frames fps Hs He ltac:(lia))
      as [out [E [_ [_ [_ Hl]]]]].
    exists out. auto.
Qed.

Lemma normalize_frames_short_witness :
  normalize_frames Q Q (fun g => g) shift_flow q_sqrt exp_pade [0] 24 = None /\
  normalize_frames Q Q (fun g => g) shift_flow q_sqrt exp_pade [0; 1; 3] 24 = Some [0; 1; 3].
Proof.
  split.
  - apply (normalize_frames_short Q Q (fun g => g) shift_flow q_sqrt exp_pade [0] 24). cbn; lia.
  - apply (normalize_frames_short Q Q (fun g => g) shift_flow q_sqrt exp_pade [0; 1; 3] 24). cbn; lia.
Defined.

Lemma normalize_frames_output_witness :
  exists out, normalize_frames Q Q (fun g => g) shift_flow q_sqrt exp_pade witness_frames 24 = Some out /\
    Forall (fun x => In x witness_frames) out /\
    hd_error out = hd_error witness_frames /\
    nth_error out (length out - 1) = nth_error witness_frames (length witness_frames - 1).
Proof.
  apply normalize_frames_output; [exact q_sqrt_nonneg | exact exp_pade_pos | cbn; lia].
Defined.

Lemma normalize_frames_length_witness :
  exists out, normalize_frames Q Q (fun g => g) shift_flow q_sqrt exp_pade witness_frames 24 = Some out /\
    (length witness_frames / 2 <= length out <= 5 * length witness_frames / 3)%nat.
Proof.
  apply normalize_frames_length; [exact q_sqrt_nonneg | exact exp_pade_pos | cbn; lia].
Defined.
